(** * Shallow embedding of [civitai_models_manager/modules/create.py]

    The module is an interactive front-end: it asks the operator for
    generation parameters, submits one request to the remote image API and
    reports on jobs.  We model

    - Python values ([None], bools, ints, floats, strings, lists, dicts) as
      the inductive [Py], a dict as an association list in insertion order;
    - Python's [int()] and [float()] on (ASCII) strings, [str.split];
    - the effects (console output, feedback messages, prompts, calls to the
      remote client and to the metadata helpers) as a trace of events
      threaded through a small exception-and-trace monad [M];
    - everything outside this file (the operator, the remote service, the
      metadata lookup of [details.py]) as an oracle [World] that answers each
      request and may look at the whole history when it does. *)

From Stdlib Require Import List String Ascii ZArith Bool Lia.
Import ListNotations.
Set Warnings "-register-all".
Open Scope string_scope.
Open Scope list_scope.
Open Scope Z_scope.

Local Infix "^^" := String.append (at level 60, right associativity).

(** ** Python values *)

(** A float as the decimal literal [float()] read denotes:
    [FNum neg m e] is [(-1)^neg * m * 10^e]; the rounding to a double is
    not modelled (no claim depends on it). *)
Inductive PyFloat :=
| FNum (neg : bool) (mant : Z) (exp : Z)
| FInf (neg : bool)
| FNaN.

Inductive Py :=
| PNone
| PBool (b : bool)
| PInt (z : Z)
| PFloat (f : PyFloat)
| PStr (s : string)
| PList (l : list Py)
| PDict (kvs : list (Py * Py)).

(** Truthiness ([bool(x)]). *)
Definition py_truthy (v : Py) : bool :=
  match v with
  | PNone => false
  | PBool b => b
  | PInt z => negb (z =? 0)
  | PFloat (FNum _ m _) => negb (m =? 0)
  | PFloat _ => true
  | PStr s => negb (String.eqb s "")
  | PList l => match l with [] => false | _ => true end
  | PDict d => match d with [] => false | _ => true end
  end.

(** Python exceptions (all of them subclasses of [Exception]). *)
Inductive ExnKind :=
| ValueError | TypeError | AttributeError | KeyError | IndexError
| ClientError (name : string).

Record Exn := mkExn { exn_kind : ExnKind; exn_msg : string }.

(** [str(e)] *)
Definition exn_str (e : Exn) : string := exn_msg e.

Definition is_value_error (e : Exn) : bool :=
  match exn_kind e with ValueError => true | _ => false end.

(** [except Exception] catches every exception we model. *)
Definition is_exception (_ : Exn) : bool := true.

(** ** Text helpers *)

Definition digit_char (d : Z) : ascii := ascii_of_nat (48 + Z.to_nat d).

Fixpoint dec_digits (fuel : nat) (n : Z) (acc : string) : string :=
  match fuel with
  | O => acc
  | S f =>
      let acc' := String (digit_char (n mod 10)) acc in
      if n / 10 =? 0 then acc' else dec_digits f (n / 10) acc'
  end.

(** [str(z)] for an int. *)
Definition z_str (z : Z) : string :=
  let fuel := S (Z.to_nat (Z.log2 (Z.abs z))) in
  if z <? 0 then "-" ^^ dec_digits fuel (- z) "" else dec_digits fuel z "".

Definition nat_str (n : nat) : string := z_str (Z.of_nat n).

(** [repr] of a string, without escaping of quotes inside it. *)
Definition str_repr (s : string) : string := "'" ^^ s ^^ "'".

Definition float_str (f : PyFloat) : string :=
  match f with
  | FNum neg m e => (if neg then "-" else "") ^^ z_str m ^^ "e" ^^ z_str e
  | FInf neg => if neg then "-inf" else "inf"
  | FNaN => "nan"
  end.

Fixpoint py_repr (v : Py) : string :=
  match v with
  | PNone => "None"
  | PBool b => if b then "True" else "False"
  | PInt z => z_str z
  | PFloat f => float_str f
  | PStr s => str_repr s
  | PList l =>
      "[" ^^ (fix go (l : list Py) : string :=
                match l with
                | [] => ""
                | [x] => py_repr x
                | x :: r => py_repr x ^^ ", " ^^ go r
                end) l ^^ "]"
  | PDict d =>
      "{" ^^ (fix go (d : list (Py * Py)) : string :=
                match d with
                | [] => ""
                | [(k, x)] => py_repr k ^^ ": " ^^ py_repr x
                | (k, x) :: r => py_repr k ^^ ": " ^^ py_repr x ^^ ", " ^^ go r
                end) d ^^ "}"
  end.

(** [str(v)], as used by f-strings. *)
Definition py_str (v : Py) : string :=
  match v with
  | PStr s => s
  | _ => py_repr v
  end.

Definition type_name (v : Py) : string :=
  match v with
  | PNone => "NoneType" | PBool _ => "bool" | PInt _ => "int"
  | PFloat _ => "float" | PStr _ => "str" | PList _ => "list"
  | PDict _ => "dict"
  end.

(** ** [str.split(sep)] *)

Fixpoint py_split (sep : ascii) (s : string) : list string :=
  match s with
  | EmptyString => [""]
  | String c r =>
      let parts := py_split sep r in
      if Ascii.eqb c sep then "" :: parts
      else match parts with
           | p :: ps => String c p :: ps
           | [] => [String c ""]
           end
  end.

(** ** [int()] and [float()] on a string

    Both strip surrounding whitespace, accept an optional sign, and accept
    single underscores between digits. *)

Definition is_py_space (c : ascii) : bool :=
  let n := nat_of_ascii c in
  (Nat.leb 9 n && Nat.leb n 13) || (Nat.leb 28 n && Nat.leb n 32).

Definition is_digit (c : ascii) : bool :=
  let n := nat_of_ascii c in Nat.leb 48 n && Nat.leb n 57.

Definition digit_val (c : ascii) : Z := Z.of_nat (nat_of_ascii c) - 48.

Fixpoint drop_spaces (l : list ascii) : list ascii :=
  match l with
  | c :: r => if is_py_space c then drop_spaces r else l
  | [] => []
  end.

Definition py_strip (s : string) : list ascii :=
  rev (drop_spaces (rev (drop_spaces (list_ascii_of_string s)))).

(** Greedy read of [digit (["_"] digit)*] after a first digit: value,
    number of digits, rest of the input. *)
Fixpoint digit_tail (l : list ascii) (v : Z) (n : nat) : Z * nat * list ascii :=
  match l with
  | c :: r =>
      if is_digit c then digit_tail r (v * 10 + digit_val c) (S n)
      else if Ascii.eqb c "_" then
        match r with
        | d :: r' =>
            if is_digit d then digit_tail r' (v * 10 + digit_val d) (S n)
            else (v, n, l)
        | [] => (v, n, l)
        end
      else (v, n, l)
  | [] => (v, n, [])
  end.

Definition digitpart (l : list ascii) : option (Z * nat * list ascii) :=
  match l with
  | c :: r => if is_digit c then Some (digit_tail r (digit_val c) 1) else None
  | [] => None
  end.

Definition all_digits (l : list ascii) : option Z :=
  match digitpart l with
  | Some (v, _, []) => Some v
  | _ => None
  end.

(** [int(s)] (base 10): [None] where Python raises [ValueError]. *)
Definition py_int (s : string) : option Z :=
  match py_strip s with
  | "+"%char :: r => all_digits r
  | "-"%char :: r => option_map Z.opp (all_digits r)
  | l => all_digits l
  end.

Definition lower (c : ascii) : ascii :=
  let n := nat_of_ascii c in
  if Nat.leb 65 n && Nat.leb n 90 then ascii_of_nat (n + 32) else c.

Definition float_exponent (l : list ascii) : option Z :=
  match l with
  | [] => Some 0
  | e :: r =>
      if Ascii.eqb (lower e) "e" then
        match r with
        | "+"%char :: r' => all_digits r'
        | "-"%char :: r' => option_map Z.opp (all_digits r')
        | _ => all_digits r
        end
      else None
  end.

(** The unsigned part of a float literal. *)
Definition float_body (neg : bool) (l : list ascii) : option PyFloat :=
  let low := string_of_list_ascii (map lower l) in
  if String.eqb low "inf" || String.eqb low "infinity" then Some (FInf neg)
  else if String.eqb low "nan" then Some FNaN
  else
    let '(ip, l1) :=
      match digitpart l with
      | Some (v, n, r) => (Some (v, n), r)
      | None => (None, l)
      end in
    let '(fp, l2) :=
      match l1 with
      | "."%char :: r =>
          match digitpart r with
          | Some (v, n, r') => (Some (v, n), r')
          | None => (None, r)
          end
      | _ => (None, l1)
      end in
    match ip, fp with
    | None, None => None
    | _, _ =>
        let '(iv, _) := match ip with Some p => p | None => (0, O) end in
        let '(fv, fn) := match fp with Some p => p | None => (0, O) end in
        match float_exponent l2 with
        | Some x =>
            Some (FNum neg (iv * 10 ^ Z.of_nat fn + fv) (x - Z.of_nat fn))
        | None => None
        end
    end.

(** [float(s)]: [None] where Python raises [ValueError]. *)
Definition py_float (s : string) : option PyFloat :=
  match py_strip s with
  | "+"%char :: r => float_body false r
  | "-"%char :: r => float_body true r
  | l => float_body false l
  end.

(** ** Python object operations used by the module *)

(** Results of evaluating Python code: a value or a raised exception. *)
Inductive Res (A : Type) :=
| Ok (a : A)
| Raise (e : Exn).
Arguments Ok {A} a.
Arguments Raise {A} e.

Definition type_error {A} (msg : string) : Res A := Raise (mkExn TypeError msg).

(** The numeric value [m * 10^e] of a bool, int or finite float. *)
Definition num_view (v : Py) : option (Z * Z) :=
  match v with
  | PBool b => Some (if b then 1 else 0, 0)
  | PInt z => Some (z, 0)
  | PFloat (FNum neg m e) => Some (if neg then - m else m, e)
  | _ => None
  end.

(** [==] between hashable values (dict keys). *)
Definition py_key_eq (a b : Py) : bool :=
  match a, b with
  | PNone, PNone => true
  | PStr x, PStr y => String.eqb x y
  | PFloat (FInf n1), PFloat (FInf n2) => Bool.eqb n1 n2
  | _, _ =>
      match num_view a, num_view b with
      | Some (m1, e1), Some (m2, e2) =>
          let e := Z.min e1 e2 in m1 * 10 ^ (e1 - e) =? m2 * 10 ^ (e2 - e)
      | _, _ => false
      end
  end.

Definition hashable (v : Py) : bool :=
  match v with PList _ | PDict _ => false | _ => true end.

Fixpoint dict_lookup (kvs : list (Py * Py)) (k : Py) : option Py :=
  match kvs with
  | [] => None
  | (k', x) :: r => if py_key_eq k' k then Some x else dict_lookup r k
  end.

(** [d[k] = v] on a dict: an existing equal key keeps its place and its
    original key object, a new key goes last. *)
Fixpoint dict_set (kvs : list (Py * Py)) (k v : Py) : list (Py * Py) :=
  match kvs with
  | [] => [(k, v)]
  | (k', x) :: r => if py_key_eq k' k then (k', v) :: r else (k', x) :: dict_set r k v
  end.

Definition dict_setitem (kvs : list (Py * Py)) (k v : Py) : Res (list (Py * Py)) :=
  if hashable k then Ok (dict_set kvs k v)
  else type_error ("unhashable type: '" ^^ type_name k ^^ "'").

Definition not_subscriptable {A} (v : Py) : Res A :=
  type_error ("'" ^^ type_name v ^^ "' object is not subscriptable").

(** [v["k"]] *)
Definition getitem_str (v : Py) (k : string) : Res Py :=
  match v with
  | PDict kvs =>
      match dict_lookup kvs (PStr k) with
      | Some x => Ok x
      | None => Raise (mkExn KeyError (str_repr k))
      end
  | PList _ => type_error "list indices must be integers or slices, not str"
  | PStr _ => type_error "string indices must be integers, not 'str'"
  | _ => not_subscriptable v
  end.

(** [v[i]] with [i] an int. *)
Definition getitem_int (v : Py) (i : Z) : Res Py :=
  match v with
  | PList l =>
      let n := Z.of_nat (List.length l) in
      let j := if i <? 0 then i + n else i in
      if (j <? 0) || (n <=? j) then Raise (mkExn IndexError "list index out of range")
      else match nth_error l (Z.to_nat j) with
           | Some x => Ok x
           | None => Raise (mkExn IndexError "list index out of range")
           end
  | PDict kvs =>
      match dict_lookup kvs (PInt i) with
      | Some x => Ok x
      | None => Raise (mkExn KeyError (z_str i))
      end
  | PStr s =>
      let n := Z.of_nat (String.length s) in
      let j := if i <? 0 then i + n else i in
      if (j <? 0) || (n <=? j) then Raise (mkExn IndexError "string index out of range")
      else match String.get (Z.to_nat j) s with
           | Some c => Ok (PStr (String c ""))
           | None => Raise (mkExn IndexError "string index out of range")
           end
  | _ => not_subscriptable v
  end.

(** [v.get("k")] *)
Definition dot_get (v : Py) (k : string) : Res Py :=
  match v with
  | PDict kvs =>
      match dict_lookup kvs (PStr k) with Some x => Ok x | None => Ok PNone end
  | _ => Raise (mkExn AttributeError
                  ("'" ^^ type_name v ^^ "' object has no attribute 'get'"))
  end.

(** ["k" in v] *)
Definition contains_str (v : Py) (k : string) : Res bool :=
  match v with
  | PDict kvs =>
      Ok (match dict_lookup kvs (PStr k) with Some _ => true | None => false end)
  | PList l => Ok (existsb (py_key_eq (PStr k)) l)
  | PStr s => Ok (match String.index 0 k s with Some _ => true | None => false end)
  | _ => type_error ("argument of type '" ^^ type_name v ^^ "' is not iterable")
  end.

(** [len(v)] *)
Definition py_len (v : Py) : Res Z :=
  match v with
  | PList l => Ok (Z.of_nat (List.length l))
  | PDict kvs => Ok (Z.of_nat (List.length kvs))
  | PStr s => Ok (Z.of_nat (String.length s))
  | _ => type_error ("object of type '" ^^ type_name v ^^ "' has no len()")
  end.

(** [for x in v] *)
Definition py_iter (v : Py) : Res (list Py) :=
  match v with
  | PList l => Ok l
  | PDict kvs => Ok (map fst kvs)
  | PStr s => Ok (map (fun c => PStr (String c "")) (list_ascii_of_string s))
  | _ => type_error ("'" ^^ type_name v ^^ "' object is not iterable")
  end.

(** [int(x)] for the answer of a prompt ([None] when the operator cancels). *)
Definition int_of_answer (a : option string) : Res Z :=
  match a with
  | Some s =>
      match py_int s with
      | Some z => Ok z
      | None => Raise (mkExn ValueError
                         ("invalid literal for int() with base 10: " ^^ str_repr s))
      end
  | None => type_error "int() argument must be a string, a bytes-like object or a real number, not 'NoneType'"
  end.

(** [float(x)] for the answer of a prompt. *)
Definition float_of_answer (a : option string) : Res PyFloat :=
  match a with
  | Some s =>
      match py_float s with
      | Some f => Ok f
      | None => Raise (mkExn ValueError
                         ("could not convert string to float: " ^^ str_repr s))
      end
  | None => type_error "float() argument must be a string or a real number, not 'NoneType'"
  end.

(** A prompt answer as a Python value. *)
Definition py_of_answer (a : option string) : Py :=
  match a with Some s => PStr s | None => PNone end.

(** ** Effects *)

(** Calls leaving this module: the metadata helpers of [details.py] and the
    [civitai] client. *)
Inductive Call :=
| CGetModelDetails (models versions id : Py)
| CProcessModelData (raw : Py)
| CImageCreate (input_data : Py)
| CJobsGet (id : Py)
| CJobsQuery (detailed query : Py)
| CJobsCancel (id : Py).

Inductive Event :=
| EFeedback (msg severity : string)         (** [feedback_message(msg, severity)] *)
| EConsole (msg : string)                   (** [console.print(msg, style="bold")] *)
| EJson (data : Py)                         (** [print_json(data=...)] *)
| EAskText (msg : string) (default answer : option string)
| EAskSelect (msg : string) (choices : list (string * Py)) (answer : option Py)
| ENet (c : Call) (resp : Res Py).

Definition trace := list Event.

(** The environment: the remote service and the metadata helpers answer a
    call, the operator answers a text prompt (with the entered text, or
    [None] when cancelled) and a menu (with the position of the picked
    entry, or [None]).  Each may depend on everything that happened before. *)
Record World := {
  respond : trace -> Call -> Res Py;
  answer_text : trace -> string -> option string -> option string;
  answer_select : trace -> string -> list (string * Py) -> option nat
}.

Definition M (A : Type) := trace -> Res A * trace.

Definition ret {A} (a : A) : M A := fun tr => (Ok a, tr).

Definition lift {A} (r : Res A) : M A := fun tr => (r, tr).

Definition bind {A B} (m : M A) (k : A -> M B) : M B :=
  fun tr =>
    match m tr with
    | (Ok a, tr') => k a tr'
    | (Raise e, tr') => (Raise e, tr')
    end.

(** [try: m except <catches>: handler] *)
Definition try_except {A} (m : M A) (catches : Exn -> bool) (handler : Exn -> M A) : M A :=
  fun tr =>
    match m tr with
    | (Raise e, tr') => if catches e then handler e tr' else (Raise e, tr')
    | r => r
    end.

Definition emit (ev : Event) : M unit := fun tr => (Ok tt, tr ++ [ev]).

Notation "x <- c1 ;; c2" := (bind c1 (fun x => c2))
  (at level 100, c1 at next level, right associativity).
Notation "c1 ;; c2" := (bind c1 (fun _ => c2)) (at level 100, right associativity).

Definition feedback_message (msg severity : string) : M unit := emit (EFeedback msg severity).
Definition console_print (msg : string) : M unit := emit (EConsole msg).
Definition print_json (data : Py) : M unit := emit (EJson data).

Fixpoint fold_m {A B} (f : A -> B -> M A) (acc : A) (l : list B) : M A :=
  match l with
  | [] => ret acc
  | x :: r => acc' <- f acc x ;; fold_m f acc' r
  end.

Fixpoint map_m {A B} (f : A -> M B) (l : list A) : M (list B) :=
  match l with
  | [] => ret []
  | x :: r => y <- f x ;; ys <- map_m f r ;; ret (y :: ys)
  end.

(** ** The module [create.py] *)

Definition SCHEDULERS : list string :=
  ["EulerA"; "Euler"; "LMS"; "Heun"; "DPM2"; "DPM2A"; "DPM2SA"; "DPM2M";
   "DPMSDE"; "DPMFast"; "DPMAdaptive"; "LMSKarras"; "DPM2Karras";
   "DPM2AKarras"; "DPM2SAKarras"; "DPM2MKarras"; "DPMSDEKarras"; "DDIM";
   "PLMS"; "UniPC"; "Undefined"; "LCM"; "DDPM"; "DEIS"].

(** The value of one entry of ["additionalNetworks"]. *)
Definition lora_network : Py :=
  PDict [(PStr "type", PStr "Lora"); (PStr "strength", PFloat (FNum false 1 0))].

Definition job_query (user_id : Py) : Py :=
  PDict [(PStr "properties", PDict [(PStr "userId", user_id)])].

(** The prompt texts of [create_image_cli]. *)
Definition MSG_VERSION := "Select a version".
Definition MSG_POS := "Enter positive prompt:".
Definition MSG_NEG := "Enter negative prompt (optional):".
Definition MSG_WH := "Enter width x height (e.g., 1024x1024):".
Definition MSG_SCHEDULER := "Select scheduler:".
Definition MSG_STEPS := "Enter number of steps:".
Definition MSG_CFG := "Enter CFG scale:".

(** [width, height = map(int, width_height.split("x"))]: the unpacking pulls
    items from the [map] iterator one at a time. *)
Definition unpack2_int (parts : list string) : Res (Z * Z) :=
  let conv s := int_of_answer (Some s) in
  match parts with
  | [] => Raise (mkExn ValueError "not enough values to unpack (expected 2, got 0)")
  | a :: rest =>
      match conv a with
      | Raise e => Raise e
      | Ok x =>
          match rest with
          | [] => Raise (mkExn ValueError "not enough values to unpack (expected 2, got 1)")
          | b :: rest' =>
              match conv b with
              | Raise e => Raise e
              | Ok y =>
                  match rest' with
                  | [] => Ok (x, y)
                  | c :: _ =>
                      match conv c with
                      | Raise e => Raise e
                      | Ok _ => Raise (mkExn ValueError "too many values to unpack (expected 2)")
                      end
                  end
              end
          end
      end
  end.

Definition split_wh (width_height : option string) : Res (Z * Z) :=
  match width_height with
  | Some s => unpack2_int (py_split "x" s)
  | None => Raise (mkExn AttributeError "'NoneType' object has no attribute 'split'")
  end.

Section CreateModule.

Variable w : World.

(** [questionary.text(msg, default=...).ask()] *)
Definition prompt_ask (msg : string) (default : option string) : M (option string) :=
  fun tr => let a := answer_text w tr msg default in (Ok a, tr ++ [EAskText msg default a]).

(** [questionary.select(msg, choices=...).ask()]: the value of the picked
    entry; a position outside the menu cannot be picked and reads as a cancel. *)
Definition select_ask (msg : string) (choices : list (string * Py)) : M (option Py) :=
  fun tr =>
    let a := match answer_select w tr msg choices with
             | Some i => option_map snd (nth_error choices i)
             | None => None
             end in
    (Ok a, tr ++ [EAskSelect msg choices a]).

(** A call to [get_model_details], [process_model_data] or the [civitai]
    client. *)
Definition civitai (c : Call) : M Py :=
  fun tr => let r := respond w tr c in (r, tr ++ [ENet c r]).

(** [get_lora_details(CIVITAI_MODELS, CIVITAI_VERSIONS, lora_id)] *)
Definition get_lora_details (CIVITAI_MODELS CIVITAI_VERSIONS lora_id : Py) : M Py :=
  try_except
    (lora_data <- civitai (CGetModelDetails CIVITAI_MODELS CIVITAI_VERSIONS lora_id) ;;
     is_lora <- (if py_truthy lora_data
                 then t <- lift (dot_get lora_data "type") ;; ret (py_key_eq t (PStr "LORA"))
                 else ret false) ;;
     if is_lora then ret lora_data
     else feedback_message ("Model with ID " ^^ py_str lora_id ^^ " is not a LoRA.") "error" ;;
          ret PNone)
    is_exception
    (fun e => feedback_message ("Error fetching LoRA details: " ^^ exn_str e) "error" ;;
              ret PNone).

(** One iteration of the [for lora_id in lora_list] loop of [generate_image],
    on the ["additionalNetworks"] dict built so far.  The call passes
    [(lora_id, CIVITAI_MODELS, CIVITAI_VERSIONS)] positionally, as the
    source does. *)
Definition lora_step (CIVITAI_MODELS CIVITAI_VERSIONS : string)
    (nets : list (Py * Py)) (lora_id : Z) : M (list (Py * Py)) :=
  lora_data <- get_lora_details (PInt lora_id) (PStr CIVITAI_MODELS) (PStr CIVITAI_VERSIONS) ;;
  found <- (if py_truthy lora_data then
              has <- lift (contains_str lora_data "versions") ;;
              if has then vs <- lift (getitem_str lora_data "versions") ;; ret (py_truthy vs)
              else ret false
            else ret false) ;;
  if found then
    lora_air <- (vs <- lift (getitem_str lora_data "versions") ;;
                 v0 <- lift (getitem_int vs 0) ;;
                 lift (dot_get v0 "air")) ;;
    if py_truthy lora_air then
      nets' <- lift (dict_setitem nets lora_air lora_network) ;;
      feedback_message ("Added LoRA: " ^^ py_str lora_air) "info" ;;
      ret nets'
    else
      feedback_message ("LoRA AIR not found for ID: " ^^ z_str lora_id) "warning" ;;
      ret nets
  else
    feedback_message ("Failed to get details for LoRA ID: " ^^ z_str lora_id) "warning" ;;
    ret nets.

Definition gen_params (pos_prompt neg_prompt width height scheduler steps cfg_scale : Py) : Py :=
  PDict [(PStr "prompt", pos_prompt);
         (PStr "negativePrompt", neg_prompt);
         (PStr "scheduler", scheduler);
         (PStr "steps", steps);
         (PStr "cfgScale", cfg_scale);
         (PStr "width", width);
         (PStr "height", height);
         (PStr "seed", PInt (-1));
         (PStr "clipSkip", PInt 1)].

(** [generate_image(...)] *)
Definition generate_image (CIVITAI_MODELS CIVITAI_VERSIONS : string)
    (air pos_prompt neg_prompt width height scheduler steps cfg_scale : Py)
    (lora_list : list Z) : M Py :=
  feedback_message "Generating the image..." "info" ;;
  try_except
    (extra <- (match lora_list with
               | [] => ret []
               | _ :: _ =>
                   feedback_message ("Processing " ^^ nat_str (List.length lora_list)
                                     ^^ " LoRA models...") "info" ;;
                   nets <- fold_m (lora_step CIVITAI_MODELS CIVITAI_VERSIONS) [] lora_list ;;
                   ret [(PStr "additionalNetworks", PDict nets)]
               end) ;;
     let input_data :=
       PDict ([(PStr "model", air);
               (PStr "params", gen_params pos_prompt neg_prompt width height
                                 scheduler steps cfg_scale)] ++ extra) in
     feedback_message "Submitting image generation request..." "info" ;;
     console_print "Input data:" ;;
     print_json input_data ;;
     response <- civitai (CImageCreate input_data) ;;
     feedback_message "Image generation request submitted successfully." "success" ;;
     ret response)
    is_exception
    (fun e => feedback_message ("Error generating image: " ^^ exn_str e) "error" ;;
              ret PNone).

(** [fetch_job_details(job_id, user_id, detailed)] *)
Definition fetch_job_details (job_id user_id detailed : Py) : M unit :=
  try_except
    (if py_truthy job_id then
       job_details <- civitai (CJobsGet job_id) ;;
       if py_truthy job_details then
         console_print "Job details:" ;; print_json job_details
       else feedback_message "No job details found." "warning"
     else if py_truthy user_id then
       jobs <- civitai (CJobsQuery detailed (job_query user_id)) ;;
       if py_truthy jobs then console_print "Jobs:" ;; print_json jobs
       else feedback_message "No jobs found for the given user ID." "warning"
     else feedback_message "Please provide either a job ID or a user ID." "error")
    is_exception
    (fun e => feedback_message ("Error fetching job details: " ^^ exn_str e) "error").

(** A Python call of [fetch_job_details] with a list of positional arguments: the
    function has three parameters and no defaults, so any other number of
    arguments raises [TypeError] before the body runs.  It returns [None]. *)
Definition call_fetch_job_details (args : list Py) : M Py :=
  match args with
  | [job_id; user_id; detailed] => fetch_job_details job_id user_id detailed ;; ret PNone
  | [] => lift (type_error "fetch_job_details() missing 3 required positional arguments: 'job_id', 'user_id', and 'detailed'")
  | [_] => lift (type_error "fetch_job_details() missing 2 required positional arguments: 'user_id' and 'detailed'")
  | [_; _] => lift (type_error "fetch_job_details() missing 1 required positional argument: 'detailed'")
  | _ => lift (type_error ("fetch_job_details() takes 3 positional arguments but "
                           ^^ nat_str (List.length args) ^^ " were given"))
  end.

(** [cancel_job(job_id)] *)
Definition cancel_job (job_id : Py) : M unit :=
  try_except
    (response <- civitai (CJobsCancel job_id) ;;
     if py_truthy response then
       console_print "Job cancellation response:" ;; print_json response
     else feedback_message "Failed to cancel the job." "error")
    is_exception
    (fun e => feedback_message ("Error cancelling job: " ^^ exn_str e) "error").

(** Lines 183-212 of [create_image_cli]: look the model up and pick the
    version's ["air"]; [None] where the source returns early. *)
Definition select_model_version (CIVITAI_MODELS CIVITAI_VERSIONS : string)
    (requested_model : Z) : M (option Py) :=
  raw_model <- civitai (CGetModelDetails (PStr CIVITAI_MODELS) (PStr CIVITAI_VERSIONS)
                                         (PInt requested_model)) ;;
  processed_model <- civitai (CProcessModelData raw_model) ;;
  if negb (py_truthy processed_model) then
    feedback_message ("No model found with ID: " ^^ z_str requested_model) "error" ;;
    ret None
  else
    pv <- lift (getitem_str processed_model "versions") ;;
    let selected_model := if py_truthy pv then processed_model else raw_model in
    vs <- lift (getitem_str selected_model "versions") ;;
    n <- lift (py_len vs) ;;
    if 1 <? n then
      vs' <- lift (getitem_str selected_model "versions") ;;
      items <- lift (py_iter vs') ;;
      version_choices <-
        map_m (fun v => vid <- lift (getitem_str v "id") ;;
                        vname <- lift (getitem_str v "name") ;;
                        ret (py_str vid ^^ " - " ^^ py_str vname, v)) items ;;
      selected_version <- select_ask MSG_VERSION version_choices ;;
      match selected_version with
      | Some v =>
          if py_truthy v then arn <- lift (getitem_str v "air") ;; ret (Some arn)
          else feedback_message "No version selected. Aborting." "error" ;; ret None
      | None => feedback_message "No version selected. Aborting." "error" ;; ret None
      end
    else
      vs' <- lift (getitem_str selected_model "versions") ;;
      v0 <- lift (getitem_int vs' 0) ;;
      arn <- lift (getitem_str v0 "air") ;;
      ret (Some arn).

(** Lines 266-279 of [create_image_cli]: report on the response. *)
Definition report_response (response : Py) : M unit :=
  if py_truthy response then
    console_print "Image generation response:" ;;
    print_json response ;;
    has_job <- lift (contains_str response "jobId") ;;
    if has_job then
      job_id <- lift (getitem_str response "jobId") ;;
      job_details <- call_fetch_job_details [job_id] ;;
      if py_truthy job_details then console_print "Job details:" ;; print_json job_details
      else ret tt
    else feedback_message "No job ID found in the response." "warning"
  else feedback_message "Image generation failed." "error".

(** Lines 216-279 of [create_image_cli]: gather the parameters, generate,
    report.  Each [return] of the source ends the computation with [tt]. *)
Definition collect_and_generate (CIVITAI_MODELS CIVITAI_VERSIONS : string)
    (arn : Py) (lora_list : list Z) : M unit :=
  pos_prompt <- prompt_ask MSG_POS None ;;
  if negb (py_truthy (py_of_answer pos_prompt)) then
    feedback_message "Positive prompt is required." "error"
  else
  neg_prompt <- prompt_ask MSG_NEG None ;;
  width_height <- prompt_ask MSG_WH (Some "1024x1024") ;;
  wh <- try_except (p <- lift (split_wh width_height) ;; ret (Some p))
          is_value_error
          (fun _ => feedback_message
                      "Invalid width x height format. Please use format like '1024x1024'."
                      "error" ;; ret None) ;;
  match wh with
  | None => ret tt
  | Some (width, height) =>
  scheduler <- select_ask MSG_SCHEDULER (map (fun s => (s, PStr s)) SCHEDULERS) ;;
  steps_in <- prompt_ask MSG_STEPS None ;;
  st <- try_except (z <- lift (int_of_answer steps_in) ;; ret (Some z))
          is_value_error
          (fun _ => feedback_message "Invalid number of steps. Please enter an integer."
                      "error" ;; ret None) ;;
  match st with
  | None => ret tt
  | Some steps =>
  cfg_in <- prompt_ask MSG_CFG None ;;
  cf <- try_except (f <- lift (float_of_answer cfg_in) ;; ret (Some f))
          is_value_error
          (fun _ => feedback_message "Invalid CFG scale. Please enter a number." "error" ;;
                    ret None) ;;
  match cf with
  | None => ret tt
  | Some cfg_scale =>
  response <- generate_image CIVITAI_MODELS CIVITAI_VERSIONS arn
                (py_of_answer pos_prompt) (py_of_answer neg_prompt)
                (PInt width) (PInt height)
                (match scheduler with Some s => s | None => PNone end)
                (PInt steps) (PFloat cfg_scale) lora_list ;;
  report_response response
  end end end.

(** [create_image_cli(CIVITAI_MODELS, CIVITAI_VERSIONS, requested_model, lora_list)] *)
Definition create_image_cli (CIVITAI_MODELS CIVITAI_VERSIONS : string)
    (requested_model : Z) (lora_list : list Z) : M unit :=
  try_except
    (sel <- select_model_version CIVITAI_MODELS CIVITAI_VERSIONS requested_model ;;
     match sel with
     | None => ret tt
     | Some arn => collect_and_generate CIVITAI_MODELS CIVITAI_VERSIONS arn lora_list
     end)
    is_exception
    (fun e => feedback_message ("An unexpected error occurred: " ^^ exn_str e) "error").

End CreateModule.

(** ** Predicates on runs *)

(** [Emits P m]: every event [m] appends to the trace satisfies [P]. *)
Definition Emits {A} (P : Event -> Prop) (m : M A) : Prop :=
  forall tr r tr', m tr = (r, tr') -> exists ext, tr' = tr ++ ext /\ Forall P ext.

(** ** Footprints: the events each function can append *)

Definition severity_ok (s : string) : Prop :=
  s = "info" \/ s = "warning" \/ s = "error" \/ s = "success".

(** The shape of the request [generate_image] submits. *)
Definition request_of (air params : Py) (d : Py) : Prop :=
  exists extra, d = PDict ([(PStr "model", air); (PStr "params", params)] ++ extra).

Definition lora_footprint (CIVITAI_MODELS CIVITAI_VERSIONS : string)
    (lora_list : list Z) (ev : Event) : Prop :=
  match ev with
  | EFeedback _ s => severity_ok s
  | ENet (CGetModelDetails a b c) _ =>
      (exists lora_id, In lora_id lora_list /\ a = PInt lora_id) /\
      b = PStr CIVITAI_MODELS /\ c = PStr CIVITAI_VERSIONS
  | _ => False
  end.

Definition generate_footprint (CIVITAI_MODELS CIVITAI_VERSIONS : string)
    (air params : Py) (lora_list : list Z) (ev : Event) : Prop :=
  match ev with
  | EConsole m => m = "Input data:"
  | EJson _ => True
  | ENet (CImageCreate d) _ => request_of air params d
  | _ => lora_footprint CIVITAI_MODELS CIVITAI_VERSIONS lora_list ev
  end.

Definition select_footprint (CIVITAI_MODELS CIVITAI_VERSIONS : string)
    (requested_model : Z) (ev : Event) : Prop :=
  match ev with
  | ENet (CGetModelDetails a b c) _ =>
      a = PStr CIVITAI_MODELS /\ b = PStr CIVITAI_VERSIONS /\ c = PInt requested_model
  | ENet (CProcessModelData _) _ => True
  | EAskSelect m _ _ => m = MSG_VERSION
  | EFeedback _ s => s = "error"
  | _ => False
  end.

Definition fetch_footprint (ev : Event) : Prop :=
  match ev with
  | ENet (CJobsGet _) _ | ENet (CJobsQuery _ _) _ => True
  | EConsole m => m = "Job details:" \/ m = "Jobs:"
  | EJson _ => True
  | EFeedback _ s => s = "warning" \/ s = "error"
  | _ => False
  end.

Definition report_footprint (ev : Event) : Prop :=
  match ev with
  | EConsole m => m = "Image generation response:" \/ m = "Job details:" \/ m = "Jobs:"
  | _ => fetch_footprint ev
  end.

(** The events a run of [collect_and_generate] can append, once the
    model reference [arn] is chosen. *)
Definition collect_footprint (arn : Py) (ev : Event) : Prop :=
  match ev with
  | EAskSelect m _ _ => m = MSG_SCHEDULER
  | ENet (CProcessModelData _) _ => False
  | ENet (CImageCreate d) _ => exists params, request_of arn params d
  | _ => True
  end.

(** ** The width x height parser *)

Fixpoint join_sep (c : ascii) (l : list string) : string :=
  match l with
  | [] => ""
  | [x] => x
  | x :: r => x ^^ String c (join_sep c r)
  end.

(** The strings the claim calls [<int>x<int>]: two base-10 integer literals
    as [int()] reads them, around the character ["x"]. *)
Definition matches_int_x_int (s : string) : Prop :=
  exists a b, s = a ^^ "x" ^^ b /\ py_int a <> None /\ py_int b <> None.

(** The message of the TypeError raised by the one-argument call. *)
Definition MSG_ARITY : string :=
  "fetch_job_details() missing 2 required positional arguments: 'user_id' and 'detailed'".

(** [lora_air] was read, as the first version's ["air"], from the answer
    of a metadata lookup done in [ext] for an identifier of [lora_list]. *)
Definition air_from (CIVITAI_MODELS CIVITAI_VERSIONS : string) (lora_list : list Z)
    (ext : trace) (lora_air : Py) : Prop :=
  py_truthy lora_air = true /\
  exists lora_id record vs v0,
    In lora_id lora_list /\
    In (ENet (CGetModelDetails (PInt lora_id) (PStr CIVITAI_MODELS) (PStr CIVITAI_VERSIONS))
             (Ok record)) ext /\
    getitem_str record "versions" = Ok vs /\ getitem_int vs 0 = Ok v0 /\
    dot_get v0 "air" = Ok lora_air.

(** ** A concrete configuration: the public endpoints, a one-version
    checkpoint, a client that answers every call, one that is offline, and
    the answers typed at the prompts. *)

Definition MODELS_URL := "https://civitai.com/api/v1/models".
Definition VERSIONS_URL := "https://civitai.com/api/v1/model-versions".

Definition demo_version : Py :=
  PDict [(PStr "id", PInt 130072); (PStr "name", PStr "v6.0");
         (PStr "air", PStr "urn:air:sd1:checkpoint:civitai:4201@130072")].

Definition demo_model : Py :=
  PDict [(PStr "id", PInt 4201); (PStr "name", PStr "Realistic Vision");
         (PStr "type", PStr "Checkpoint"); (PStr "versions", PList [demo_version])].

Definition demo_respond (c : Call) : Res Py :=
  match c with
  | CGetModelDetails _ _ _ => Ok demo_model
  | CProcessModelData raw => Ok raw
  | CImageCreate _ => Ok (PDict [(PStr "token", PStr "tok-1"); (PStr "jobId", PStr "job-1")])
  | CJobsGet id => Ok (PDict [(PStr "jobId", id); (PStr "status", PStr "Succeeded")])
  | CJobsQuery _ _ => Ok (PDict [(PStr "jobs", PList [])])
  | CJobsCancel id => Ok (PDict [(PStr "jobId", id); (PStr "cancelled", PBool true)])
  end.

Definition offline_respond (c : Call) : Res Py :=
  Raise (mkExn (ClientError "ConnectionError") "Max retries exceeded with url: /v1/consumer/jobs").

Definition demo_answers (pos wh : string) (msg : string) : option string :=
  if String.eqb msg MSG_POS then Some pos
  else if String.eqb msg MSG_NEG then Some "blurry"
  else if String.eqb msg MSG_WH then Some wh
  else if String.eqb msg MSG_STEPS then Some "30"
  else if String.eqb msg MSG_CFG then Some "7.5"
  else None.

Definition demo_world (respond : Call -> Res Py) (pos wh : string) : World := {|
  respond := fun _ c => respond c;
  answer_text := fun _ msg _ => demo_answers pos wh msg;
  answer_select := fun _ _ _ => Some 0%nat
|}.

Definition demo_create (pos wh : string) (lora_list : list Z) :=
  create_image_cli (demo_world demo_respond pos wh) MODELS_URL VERSIONS_URL 4201 lora_list [].

Definition demo_generate (lora_list : list Z) :=
  generate_image (demo_world demo_respond "a lighthouse at dusk" "512x768")
    MODELS_URL VERSIONS_URL (PStr "urn:air:sd1:checkpoint:civitai:4201@130072")
    (PStr "a lighthouse at dusk") (PStr "blurry") (PInt 512) (PInt 768) (PStr "EulerA")
    (PInt 30) (PFloat (FNum false 75 (-1))) lora_list [].

Definition demo_air : Py := PStr "urn:air:sd1:checkpoint:civitai:4201@130072".

Definition demo_params : Py :=
  gen_params (PStr "a lighthouse at dusk") (PStr "blurry") (PInt 512) (PInt 768)
    (PStr "EulerA") (PInt 30) (PFloat (FNum false 75 (-1))).
(** ** Further definitions: events and keys, the labels of the version
    menu, and more configurations (a model with two versions, a LoRA record,
    a model that is not found, a client that rejects the request or answers
    without a job id, an operator who cancels a prompt or picks a fixed menu
    entry). *)

Definition is_submission (ev : Event) : bool :=
  match ev with ENet (CImageCreate _) _ => true | _ => false end.

Fixpoint lookup_ids (t : trace) : list Py :=
  match t with
  | [] => []
  | ENet (CGetModelDetails a _ _) _ :: r => a :: lookup_ids r
  | _ :: r => lookup_ids r
  end.



Definition int_char (c : ascii) : Prop := is_digit c = true \/ c = "_"%char.

Definition demo_version2 : Py :=
  PDict [(PStr "id", PInt 245598); (PStr "name", PStr "v5.1");
         (PStr "air", PStr "urn:air:sd1:checkpoint:civitai:4201@245598")].

Definition demo_model2 : Py :=
  PDict [(PStr "id", PInt 4201); (PStr "name", PStr "Realistic Vision");
         (PStr "type", PStr "Checkpoint");
         (PStr "versions", PList [demo_version; demo_version2])].

Definition demo_lora : Py :=
  PDict [(PStr "id", PInt 58390); (PStr "name", PStr "Detail Tweaker");
         (PStr "type", PStr "LORA");
         (PStr "versions", PList [PDict [(PStr "id", PInt 62833);
                                         (PStr "air", PStr "urn:air:sd1:lora:civitai:58390@62833")]])].

Definition rejected_exn : Exn :=
  mkExn (ClientError "HTTPError") "400 Client Error: Bad Request".

Definition missing_respond (c : Call) : Res Py :=
  match c with CProcessModelData _ => Ok PNone | _ => demo_respond c end.

Definition two_version_respond (c : Call) : Res Py :=
  match c with CGetModelDetails _ _ _ => Ok demo_model2 | _ => demo_respond c end.

Definition rejecting_respond (c : Call) : Res Py :=
  match c with CImageCreate _ => Raise rejected_exn | _ => demo_respond c end.

Definition token_only_respond (c : Call) : Res Py :=
  match c with
  | CImageCreate _ => Ok (PDict [(PStr "token", PStr "tok-1")])
  | _ => demo_respond c
  end.

Definition lora_respond (c : Call) : Res Py :=
  match c with CGetModelDetails (PInt _) _ _ => Ok demo_lora | _ => demo_respond c end.

Definition pick_world (respond : Call -> Res Py) (pick : option nat) : World := {|
  respond := fun _ c => respond c;
  answer_text := fun _ msg _ => demo_answers "a lighthouse at dusk" "512x768" msg;
  answer_select := fun _ _ _ => pick
|}.

Definition cancel_world (cancelled : string) : World := {|
  respond := fun _ c => demo_respond c;
  answer_text := fun _ msg _ =>
    if String.eqb msg cancelled then None
    else demo_answers "a lighthouse at dusk" "512x768" msg;
  answer_select := fun _ _ _ => Some 0%nat
|}.

Definition run_create (w : World) :=
  create_image_cli w MODELS_URL VERSIONS_URL 4201 [] [].

Definition lora_generate (lora_list : list Z) :=
  generate_image (demo_world lora_respond "a lighthouse at dusk" "512x768")
    MODELS_URL VERSIONS_URL demo_air
    (PStr "a lighthouse at dusk") (PStr "blurry") (PInt 512) (PInt 768) (PStr "EulerA")
    (PInt 30) (PFloat (FNum false 75 (-1))) lora_list [].

Definition version_choices : list (string * Py) :=
  [("130072 - v6.0", demo_version); ("245598 - v5.1", demo_version2)].

(** ** Examples of the literal parsers *)

Example py_int_ex1 : py_int " 1_024 " = Some 1024. Proof. reflexivity. Qed.
Example py_int_ex2 : py_int "1024x" = None. Proof. reflexivity. Qed.
Example py_int_ex3 : py_int "-7" = Some (-7). Proof. reflexivity. Qed.
Example py_int_ex4 : py_int "1__0" = None. Proof. reflexivity. Qed.
Example py_float_ex1 : py_float "7.5" = Some (FNum false 75 (-1)). Proof. reflexivity. Qed.
Example py_float_ex2 : py_float ".5e2" = Some (FNum false 5 1). Proof. reflexivity. Qed.
Example py_float_ex3 : py_float "abc" = None. Proof. reflexivity. Qed.
Example py_float_ex4 : py_float "-Infinity" = Some (FInf true). Proof. reflexivity. Qed.
Example split_ex : py_split "x" "1024x768" = ["1024"; "768"]. Proof. reflexivity. Qed.
Example z_str_ex : z_str (-1205) = "-1205". Proof. reflexivity. Qed.

(** ** Reasoning about runs *)

Section Runs.

Variable w : World.

Lemma bind_inv {A B} (m : M A) (k : A -> M B) tr r tr' :
  bind m k tr = (r, tr') ->
  (exists a t1, m tr = (Ok a, t1) /\ k a t1 = (r, tr')) \/
  (exists e, m tr = (Raise e, tr') /\ r = Raise e).
Proof.
  unfold bind. destruct (m tr) as [[a|e] t1]; intro H.
  - left. eauto.
  - right. inversion H. eauto.
Qed.

Lemma try_inv {A} (m : M A) c h tr r tr' :
  try_except m c h tr = (r, tr') ->
  (exists a, m tr = (Ok a, tr') /\ r = Ok a) \/
  (exists e t1, m tr = (Raise e, t1) /\ c e = true /\ h e t1 = (r, tr')) \/
  (exists e, m tr = (Raise e, tr') /\ c e = false /\ r = Raise e).
Proof.
  unfold try_except. destruct (m tr) as [[a|e] t1] eqn:Em; intro H.
  - left. inversion H. eauto.
  - destruct (c e) eqn:Ec.
    + right; left. eauto.
    + right; right. inversion H. eauto.
Qed.

Lemma ret_inv {A} (a : A) tr r tr' : ret a tr = (r, tr') -> r = Ok a /\ tr' = tr.
Proof. unfold ret. intro H. inversion H. auto. Qed.

Lemma lift_inv {A} (x : Res A) tr r tr' : lift x tr = (r, tr') -> r = x /\ tr' = tr.
Proof. unfold lift. intro H. inversion H. auto. Qed.

Lemma emit_inv ev tr r tr' : emit ev tr = (r, tr') -> r = Ok tt /\ tr' = tr ++ [ev].
Proof. unfold emit. intro H. inversion H. auto. Qed.

Lemma prompt_ask_inv msg d tr r tr' :
  prompt_ask w msg d tr = (r, tr') ->
  exists a, r = Ok a /\ tr' = tr ++ [EAskText msg d a].
Proof. unfold prompt_ask. intro H. inversion H. eauto. Qed.

Lemma select_ask_inv msg ch tr r tr' :
  select_ask w msg ch tr = (r, tr') ->
  exists a, r = Ok a /\ tr' = tr ++ [EAskSelect msg ch a].
Proof. unfold select_ask. intro H. inversion H. eauto. Qed.

Lemma civitai_inv c tr r tr' :
  civitai w c tr = (r, tr') -> tr' = tr ++ [ENet c r].
Proof. unfold civitai. intro H. inversion H. auto. Qed.

Lemma emits_ret {A} P (a : A) : Emits P (ret a).
Proof. intros tr r tr' H. apply ret_inv in H as [_ ->]. exists []. rewrite app_nil_r. auto. Qed.

Lemma emits_lift {A} P (x : Res A) : Emits P (lift x).
Proof. intros tr r tr' H. apply lift_inv in H as [_ ->]. exists []. rewrite app_nil_r. auto. Qed.

Lemma emits_emit P ev : P ev -> Emits P (emit ev).
Proof. intros HP tr r tr' H. apply emit_inv in H as [_ ->]. eauto. Qed.

Lemma emits_bind {A B} P (m : M A) (k : A -> M B) :
  Emits P m -> (forall a, Emits P (k a)) -> Emits P (bind m k).
Proof.
  intros Hm Hk tr r tr' H.
  apply bind_inv in H as [(a & t1 & H1 & H2) | (e & H1 & _)].
  - destruct (Hm _ _ _ H1) as (e1 & -> & F1).
    destruct (Hk a _ _ _ H2) as (e2 & -> & F2).
    exists (e1 ++ e2). rewrite app_assoc. split; auto. apply Forall_app; auto.
  - exact (Hm _ _ _ H1).
Qed.

Lemma emits_try {A} P (m : M A) c h :
  Emits P m -> (forall e, Emits P (h e)) -> Emits P (try_except m c h).
Proof.
  intros Hm Hh tr r tr' H.
  apply try_inv in H as [(a & H1 & _) | [(e & t1 & H1 & _ & H2) | (e & H1 & _)]].
  - exact (Hm _ _ _ H1).
  - destruct (Hm _ _ _ H1) as (e1 & -> & F1).
    destruct (Hh e _ _ _ H2) as (e2 & -> & F2).
    exists (e1 ++ e2). rewrite app_assoc. split; auto. apply Forall_app; auto.
  - exact (Hm _ _ _ H1).
Qed.

Lemma emits_prompt P msg d : (forall a, P (EAskText msg d a)) -> Emits P (prompt_ask w msg d).
Proof. intros HP tr r tr' H. apply prompt_ask_inv in H as (a & _ & ->). eauto. Qed.

Lemma emits_select P msg ch : (forall a, P (EAskSelect msg ch a)) -> Emits P (select_ask w msg ch).
Proof. intros HP tr r tr' H. apply select_ask_inv in H as (a & _ & ->). eauto. Qed.

Lemma emits_civitai P c : (forall r, P (ENet c r)) -> Emits P (civitai w c).
Proof. intros HP tr r tr' H. apply civitai_inv in H as ->. eauto. Qed.

Lemma emits_fold {A B} P (f : A -> B -> M A) l :
  (forall a b, In b l -> Emits P (f a b)) -> forall acc, Emits P (fold_m f acc l).
Proof.
  intros Hf. induction l as [|x l IH]; intro acc; simpl.
  - apply emits_ret.
  - apply emits_bind.
    + apply Hf. left. reflexivity.
    + intro. apply IH. intros. apply Hf. right. assumption.
Qed.

Lemma emits_weaken {A} (P Q : Event -> Prop) (m : M A) :
  (forall ev, P ev -> Q ev) -> Emits P m -> Emits Q m.
Proof.
  intros HPQ Hm tr r tr' H. destruct (Hm _ _ _ H) as (ext & -> & F).
  exists ext. split; auto. eapply Forall_impl; eauto.
Qed.

Lemma emits_map {A B} P (f : A -> M B) :
  (forall a, Emits P (f a)) -> forall l, Emits P (map_m f l).
Proof.
  intros Hf l. induction l as [|x l IH]; simpl.
  - apply emits_ret.
  - apply emits_bind; auto. intro. apply emits_bind; auto. intro. apply emits_ret.
Qed.

End Runs.

Ltac emits_tac :=
  repeat match goal with
  | |- Emits _ (bind _ _) => apply emits_bind; [|intros ?]
  | |- Emits _ (try_except _ _ _) => apply emits_try; [|intros ?]
  | |- Emits _ (ret _) => apply emits_ret
  | |- Emits _ (lift _) => apply emits_lift
  | |- Emits _ (feedback_message _ _) => apply emits_emit
  | |- Emits _ (console_print _) => apply emits_emit
  | |- Emits _ (print_json _) => apply emits_emit
  | |- Emits _ (emit _) => apply emits_emit
  | |- Emits _ (prompt_ask _ _ _) => apply emits_prompt; intros ?
  | |- Emits _ (select_ask _ _ _) => apply emits_select; intros ?
  | |- Emits _ (civitai _ _) => apply emits_civitai; intros ?
  | |- Emits _ (fold_m _ _ _) => apply emits_fold; intros ? ? ?
  | |- Emits _ (map_m _ _) => apply emits_map; intros ?
  | |- Emits _ (if ?b then _ else _) => destruct b
  | |- Emits _ (match ?x with _ => _ end) => destruct x
  | |- Emits _ _ => progress (cbv beta iota)
  end.

Ltac inv_run_step :=
  match goal with
  | H : Raise _ = Ok _ |- _ => discriminate H
  | H : Ok _ = Raise _ |- _ => discriminate H
  | H : Ok _ = Ok _ |- _ => injection H as H; subst
  | H : Raise _ = Raise _ |- _ => injection H as H; subst
  | H : bind _ _ _ = (_, _) |- _ =>
      apply bind_inv in H; destruct H as [(? & ? & ? & H) | (? & ? & ?)]; [cbv beta in H|]
  | H : try_except _ _ _ _ = (_, _) |- _ =>
      apply try_inv in H;
      destruct H as [(? & ? & ?) | [(? & ? & ? & ? & H) | (? & ? & ? & ?)]];
      [| cbv beta in H |]
  | H : ret _ _ = (_, _) |- _ => apply ret_inv in H; destruct H; subst
  | H : lift _ _ = (_, _) |- _ => apply lift_inv in H; destruct H; subst
  | H : emit _ _ = (_, _) |- _ => apply emit_inv in H; destruct H; subst
  | H : feedback_message _ _ _ = (_, _) |- _ => apply emit_inv in H; destruct H; subst
  | H : console_print _ _ = (_, _) |- _ => apply emit_inv in H; destruct H; subst
  | H : print_json _ _ = (_, _) |- _ => apply emit_inv in H; destruct H; subst
  | H : prompt_ask _ _ _ _ = (_, _) |- _ =>
      apply prompt_ask_inv in H; destruct H as (? & ? & ?); subst
  | H : select_ask _ _ _ _ = (_, _) |- _ =>
      apply select_ask_inv in H; destruct H as (? & ? & ?); subst
  | H : civitai _ _ _ = (_, _) |- _ => apply civitai_inv in H; subst
  | H : (if ?b then _ else _) _ = (_, _) |- _ => destruct b eqn:?
  | H : (match ?x with _ => _ end) _ = (_, _) |- _ => destruct x eqn:?
  end.

Ltac inv_run := repeat inv_run_step.

Ltac footprint_tac :=
  simpl; unfold severity_ok;
  repeat first [ exact I | reflexivity | split | eassumption
               | left; reflexivity | right ].

Section Footprints.

Variable w : World.
Variables (CIVITAI_MODELS CIVITAI_VERSIONS : string).

Lemma lora_step_footprint lora_list nets lora_id :
  In lora_id lora_list ->
  Emits (lora_footprint CIVITAI_MODELS CIVITAI_VERSIONS lora_list)
        (lora_step w CIVITAI_MODELS CIVITAI_VERSIONS nets lora_id).
Proof.
  intro Hin. unfold lora_step, get_lora_details. emits_tac.
  all: simpl; unfold severity_ok; auto 6.
  split; eauto.
Qed.

Lemma lora_loop_footprint lora_list nets :
  Emits (lora_footprint CIVITAI_MODELS CIVITAI_VERSIONS lora_list)
        (fold_m (lora_step w CIVITAI_MODELS CIVITAI_VERSIONS) nets lora_list).
Proof.
  apply emits_fold. intros. apply lora_step_footprint. assumption.
Qed.

Lemma generate_image_footprint air pos neg wd ht sch st cfg lora_list :
  Emits (generate_footprint CIVITAI_MODELS CIVITAI_VERSIONS air
           (gen_params pos neg wd ht sch st cfg) lora_list)
        (generate_image w CIVITAI_MODELS CIVITAI_VERSIONS air pos neg wd ht sch st cfg lora_list).
Proof.
  unfold generate_image. emits_tac.
  all: try (eapply emits_weaken; [|apply lora_step_footprint; eassumption];
            intros ev Hev; destruct ev as [| | | | | [] ]; simpl in *; tauto).
  all: simpl; unfold severity_ok, request_of; eauto 6.
  eexists; reflexivity.
Qed.

Lemma select_model_version_footprint requested_model :
  Emits (select_footprint CIVITAI_MODELS CIVITAI_VERSIONS requested_model)
        (select_model_version w CIVITAI_MODELS CIVITAI_VERSIONS requested_model).
Proof.
  unfold select_model_version. emits_tac; simpl; auto.
Qed.

Lemma fetch_job_details_footprint job_id user_id detailed :
  Emits fetch_footprint (fetch_job_details w job_id user_id detailed).
Proof.
  unfold fetch_job_details. emits_tac; simpl; auto.
Qed.

Lemma call_fetch_job_details_footprint args :
  Emits fetch_footprint (call_fetch_job_details w args).
Proof.
  unfold call_fetch_job_details.
  destruct args as [|a [|b [|c [|d r]]]]; emits_tac.
  apply fetch_job_details_footprint.
Qed.

Lemma report_response_footprint response :
  Emits report_footprint (report_response w response).
Proof.
  unfold report_response, call_fetch_job_details. emits_tac; simpl; auto.
Qed.

End Footprints.

Ltac use_footprints :=
  repeat match goal with
  | H : select_model_version _ _ _ _ _ = (_, _) |- _ =>
      let F := fresh "F" in
      apply select_model_version_footprint in H; destruct H as (? & ? & F); subst
  | H : generate_image _ _ _ _ _ _ _ _ _ _ _ _ _ = (_, _) |- _ =>
      let F := fresh "F" in
      apply generate_image_footprint in H; destruct H as (? & ? & F); subst
  | H : report_response _ _ _ = (_, _) |- _ =>
      let F := fresh "F" in
      apply report_response_footprint in H; destruct H as (? & ? & F); subst
  | H : fold_m (lora_step _ _ _) _ _ _ = (_, _) |- _ =>
      let F := fresh "F" in
      apply lora_loop_footprint in H; destruct H as (? & ? & F); subst
  | H : map_m _ _ _ = (_, _) |- _ =>
      let F := fresh "F" in
      apply (emits_map (fun _ => False)) in H;
      [destruct H as (? & ? & F); subst | intros; emits_tac]
  end.

(** An event that lies in a part of the trace whose footprint excludes it. *)
Ltac trace_contra :=
  repeat match goal with
  | H : In _ (_ ++ _) |- _ => apply in_app_or in H; destruct H as [H|H]
  | H : In _ (_ :: _) |- _ => destruct H as [H|H]
  | H : In _ [] |- _ => destruct H
  | H : In ?ev ?ext, F : Forall _ ?ext |- _ =>
      let G := fresh "G" in
      pose proof (proj1 (Forall_forall _ _) F ev H) as G; simpl in G; clear H
  end.

Ltac unfold_msgs :=
  unfold MSG_VERSION, MSG_POS, MSG_NEG, MSG_WH, MSG_SCHEDULER, MSG_STEPS, MSG_CFG in *.

(** Close a goal whose hypotheses put an event where it cannot be. *)
Ltac ev_contra :=
  trace_contra; unfold_msgs;
  repeat match goal with
  | G : False |- _ => destruct G
  | H : _ = _ |- _ => discriminate H
  | H : EAskText _ _ _ = EAskText _ _ _ |- _ => injection H as H; subst
  | H : EFeedback _ _ = EFeedback _ _ |- _ => injection H as H; subst
  | H : ENet _ _ = ENet _ _ |- _ => injection H as H; subst
  | H : _ /\ _ |- _ => destruct H
  | H : _ \/ _ |- _ => destruct H
  end.

Lemma py_split_nonempty c s : py_split c s <> [].
Proof.
  destruct s as [|ch r]; simpl. discriminate.
  destruct (Ascii.eqb ch c); [discriminate|].
  destruct (py_split c r); discriminate.
Qed.

Lemma py_split_join c s : join_sep c (py_split c s) = s.
Proof.
  induction s as [|ch r IH]; simpl. reflexivity.
  destruct (Ascii.eqb ch c) eqn:E.
  - apply Ascii.eqb_eq in E. subst.
    destruct (py_split c r) as [|p ps] eqn:Es.
    + exfalso. exact (py_split_nonempty c r Es).
    + simpl in IH |- *. rewrite IH. reflexivity.
  - destruct (py_split c r) as [|p ps] eqn:Es.
    + exfalso. exact (py_split_nonempty c r Es).
    + destruct ps as [|q qs]; simpl in *; rewrite <- IH; reflexivity.
Qed.

Lemma unpack2_int_ok parts x y :
  unpack2_int parts = Ok (x, y) ->
  exists a b, parts = [a; b] /\ py_int a = Some x /\ py_int b = Some y.
Proof.
  unfold unpack2_int, int_of_answer.
  destruct parts as [|a [|b [|c rest]]]; try discriminate;
  destruct (py_int a) eqn:Ea; try discriminate;
  try (destruct (py_int b) eqn:Eb; try discriminate);
  try (destruct (py_int c) eqn:Ec; discriminate).
  intro H. injection H as -> ->. eauto.
Qed.

Lemma split_wh_matches s x y : Ok (x, y) = split_wh (Some s) -> matches_int_x_int s.
Proof.
  simpl. intro H. symmetry in H.
  apply unpack2_int_ok in H as (a & b & Hs & Ha & Hb).
  exists a, b. repeat split.
  - rewrite <- (py_split_join "x" s), Hs. reflexivity.
  - rewrite Ha. discriminate.
  - rewrite Hb. discriminate.
Qed.

Lemma split_wh_raise s e : Raise e = split_wh (Some s) -> is_value_error e = true.
Proof.
  simpl. unfold unpack2_int, int_of_answer.
  destruct (py_split "x" s) as [|a [|b [|c rest]]]; intro H;
  repeat match type of H with
  | context [match py_int ?x with _ => _ end] => destruct (py_int x)
  end; try discriminate; injection H as ->; reflexivity.
Qed.

(** ** Lemmas used by the claims *)

Lemma matches_has_x s : matches_int_x_int s -> In "x"%char (list_ascii_of_string s).
Proof.
  intros (a & b & -> & _). induction a as [|c a IH]; simpl; auto.
Qed.

Lemma py_key_eq_str t s : py_key_eq t (PStr s) = true -> t = PStr s.
Proof.
  destruct t as [| | | [] | s' | |]; simpl; try discriminate;
  try (destruct (num_view _) as [[]|]; discriminate).
  intro H. apply String.eqb_eq in H. subst. reflexivity.
Qed.

Lemma get_lora_details_ok (w : World) a b c tr r tr' :
  get_lora_details w a b c tr = (r, tr') -> exists x, r = Ok x.
Proof.
  unfold get_lora_details. intro H. inv_run; eauto; discriminate.
Qed.

Lemma lora_step_lookup (w : World) M V nets lora_id tr r tr' :
  lora_step w M V nets lora_id tr = (r, tr') ->
  exists res ext,
    tr' = tr ++ ENet (CGetModelDetails (PInt lora_id) (PStr M) (PStr V)) res :: ext.
Proof.
  unfold lora_step, get_lora_details. intro H. inv_run.
  all: repeat rewrite <- app_assoc; simpl; eauto.
Qed.

Lemma lora_loop_lookup (w : World) M V L nets tr n tr' :
  fold_m (lora_step w M V) nets L tr = (Ok n, tr') ->
  exists ext, tr' = tr ++ ext /\
    forall lora_id, In lora_id L ->
      exists res, In (ENet (CGetModelDetails (PInt lora_id) (PStr M) (PStr V)) res) ext.
Proof.
  revert nets tr. induction L as [|x L IH]; intros nets tr H; simpl in H.
  - apply ret_inv in H as [_ ->]. exists []. rewrite app_nil_r. split; [reflexivity|].
    intros _ [].
  - apply bind_inv in H as [(a & t1 & H1 & H2) | (e & _ & E)]; [|discriminate E].
    destruct (lora_step_lookup _ _ _ _ _ _ _ _ H1) as (res & e1 & ->).
    destruct (IH _ _ H2) as (e2 & -> & Hl).
    eexists; split; [rewrite <- app_assoc; reflexivity|].
    intros lora_id [<- | Hi].
    + exists res. left. reflexivity.
    + destruct (Hl _ Hi) as (res' & Hr). exists res'. right. apply in_or_app. auto.
Qed.

Lemma select_single_version (w : World) M V req tr r ext raw pm v :
  select_model_version w M V req tr = (r, tr ++ ext) ->
  In (ENet (CProcessModelData raw) (Ok pm)) ext ->
  getitem_str pm "versions" = Ok (PList [v]) ->
  (forall ch a, ~ In (EAskSelect MSG_VERSION ch a) ext) /\
  (forall arn, r = Ok (Some arn) -> getitem_str v "air" = Ok arn).
Proof.
  intros H Hin Hv.
  remember (tr ++ ext) as tr' eqn:E.
  unfold select_model_version in H. inv_run; use_footprints.
  all: match goal with
       | E : ?t ++ ?e = _, Hin : In _ ?e |- _ =>
           repeat rewrite <- app_assoc in E; apply app_inv_head in E; subst e
       end.
  all: ev_contra.
  all: split; [intros ch a Ha; try (ev_contra; fail)|
               intros arn Harn; try discriminate Harn; injection Harn as <-].
  all: repeat match goal with
       | Hv : getitem_str ?pm "versions" = Ok _, K : Ok _ = getitem_str ?pm "versions" |- _ =>
           rewrite Hv in K; injection K as K; subst
       | K : Ok _ = getitem_str (if py_truthy (PList _) then _ else _) _ |- _ => simpl in K
       | K : Ok _ = py_len (PList _) |- _ => simpl in K; injection K as K; subst
       | K : Ok _ = getitem_int (PList [_]) 0 |- _ => simpl in K; injection K as K; subst
       end.
  all: first [discriminate | symmetry; assumption].
Qed.

Lemma collect_and_generate_footprint (w : World) M V arn L :
  Emits (collect_footprint arn) (collect_and_generate w M V arn L).
Proof.
  unfold collect_and_generate. emits_tac; simpl; auto.
  - eapply emits_weaken; [|apply generate_image_footprint].
    intros [| | | | |[]] Hev; simpl in *; eauto; contradiction.
  - intro. eapply emits_weaken; [|apply report_response_footprint].
    intros [| | | | |[]] Hev; simpl in *; tauto.
Qed.

Lemma generate_image_response (w : World) M V air pos neg wd ht sch st cfg L tr r ext d resp :
  generate_image w M V air pos neg wd ht sch st cfg L tr = (r, tr ++ ext) ->
  In (ENet (CImageCreate d) (Ok resp)) ext ->
  r = Ok resp.
Proof.
  intros H Hin.
  remember (tr ++ ext) as tr' eqn:E.
  unfold generate_image in H. inv_run; use_footprints.
  all: match goal with
       | E : ?t ++ ?e = _, Hin : In _ ?e |- _ =>
           repeat rewrite <- app_assoc in E; apply app_inv_head in E; subst e
       end.
  all: ev_contra; reflexivity.
Qed.

Lemma pos_answer_ok a :
  negb (py_truthy (py_of_answer a)) = false -> exists p, a = Some p /\ p <> "".
Proof.
  destruct a as [p|]; simpl; [|discriminate].
  destruct (String.eqb p "") eqn:E; simpl; [discriminate|].
  intros _. exists p. split; [reflexivity|]. intros ->. discriminate E.
Qed.

Lemma split_wh_some a x y :
  Ok (x, y) = split_wh a -> exists s, a = Some s /\ matches_int_x_int s.
Proof.
  destruct a as [s|]; simpl; [|discriminate].
  intro H. exists s. split; [reflexivity|]. eapply split_wh_matches. exact H.
Qed.

Lemma int_of_answer_some a z :
  Ok z = int_of_answer a -> exists s, a = Some s /\ py_int s = Some z.
Proof.
  destruct a as [s|]; simpl; [|discriminate].
  destruct (py_int s) eqn:E; [|discriminate]. intro H. injection H as ->. eauto.
Qed.

Lemma float_of_answer_some a f :
  Ok f = float_of_answer a -> exists s, a = Some s /\ py_float s = Some f.
Proof.
  destruct a as [s|]; simpl; [|discriminate].
  destruct (py_float s) eqn:E; [|discriminate]. intro H. injection H as ->. eauto.
Qed.

Lemma dict_set_in kvs k v kv :
  In kv (dict_set kvs k v) ->
  In kv kvs \/ kv = (k, v) \/ (exists x, In (fst kv, x) kvs /\ snd kv = v).
Proof.
  induction kvs as [|[k' x] r IH]; simpl.
  - intros [<- | []]. auto.
  - destruct (py_key_eq k' k).
    + intros [<- | Hr]; [right; right; exists x; simpl; auto | auto].
    + intros [<- | Hr]; [auto|].
      destruct (IH Hr) as [Hi | [Hi | (y & Hy & Hs)]]; auto.
      right; right. exists y. auto.
Qed.

Lemma air_from_app_l M V L e1 e2 k : air_from M V L e1 k -> air_from M V L (e1 ++ e2) k.
Proof.
  intros (Ht & i & rc & vs & v0 & Hi & Hin & H1 & H2 & H3).
  split; [assumption|]. exists i, rc, vs, v0. rewrite in_app_iff. auto.
Qed.

Lemma air_from_app_r M V L e1 e2 k : air_from M V L e2 k -> air_from M V L (e1 ++ e2) k.
Proof.
  intros (Ht & i & rc & vs & v0 & Hi & Hin & H1 & H2 & H3).
  split; [assumption|]. exists i, rc, vs, v0. rewrite in_app_iff. auto.
Qed.

Lemma lora_step_nets (w : World) M V L nets lora_id tr n tr' :
  In lora_id L ->
  lora_step w M V nets lora_id tr = (Ok n, tr') ->
  (forall kv, In kv nets -> snd kv = lora_network) ->
  exists ext, tr' = tr ++ ext /\
    forall kv, In kv n -> snd kv = lora_network /\
      ((exists x, In (fst kv, x) nets) \/ air_from M V L ext (fst kv)).
Proof.
  intros Hl H Hn.
  unfold lora_step, get_lora_details in H. inv_run.
  all: try discriminate.
  all: eexists; split; [repeat rewrite <- app_assoc; reflexivity|].
  all: try (intros kv Hkv; split; [auto | left; exists (snd kv); destruct kv; exact Hkv]).
  all: match goal with K : Ok _ = dict_setitem _ _ _ |- _ => unfold dict_setitem in K end.
  all: match goal with K : Ok _ = (if ?h then _ else _) |- _ => destruct h; [|discriminate K] end.
  all: match goal with K : Ok _ = Ok _ |- _ => injection K as K; subst end.
  all: intros kv Hkv; apply dict_set_in in Hkv as [Hi | [-> | (xo & Hx & Hs)]].
  all: try (split; [auto | left; exists (snd kv); destruct kv; exact Hi]).
  all: try (split; [exact Hs | left; eauto]).
  all: split; [reflexivity | right; split; [assumption|]].
  all: match goal with
       | K1 : Ok ?vs = getitem_str ?rc "versions", K2 : Ok ?v0 = getitem_int ?vs 0,
         K3 : Ok ?a = dot_get ?v0 "air" |- _ =>
           exists lora_id, rc, vs, v0; simpl; auto 10
       end.
Qed.

Lemma air_from_incl M V L e1 e2 k :
  incl e1 e2 -> air_from M V L e1 k -> air_from M V L e2 k.
Proof.
  intros Hi (Ht & i & rc & vs & v0 & Hl & Hin & H1 & H2 & H3).
  split; [assumption|]. exists i, rc, vs, v0. auto 6.
Qed.

Lemma lora_loop_nets (w : World) M V L0 L nets tr n tr' :
  incl L L0 ->
  fold_m (lora_step w M V) nets L tr = (Ok n, tr') ->
  (forall kv, In kv nets -> snd kv = lora_network) ->
  exists ext, tr' = tr ++ ext /\
    forall kv, In kv n -> snd kv = lora_network /\
      ((exists x, In (fst kv, x) nets) \/ air_from M V L0 ext (fst kv)).
Proof.
  revert nets tr. induction L as [|i L IH]; intros nets tr Hincl H Hn; simpl in H.
  - apply ret_inv in H as [E ->]. injection E as <-.
    exists []. rewrite app_nil_r. split; [reflexivity|].
    intros kv Hkv. split; [auto | left; exists (snd kv); destruct kv; exact Hkv].
  - apply bind_inv in H as [(a & t1 & H1 & H2) | (e & _ & E)]; [|discriminate E].
    destruct (lora_step_nets w M V L0 nets i tr a t1 (Hincl i (or_introl eq_refl)) H1 Hn)
      as (e1 & -> & Ha).
    destruct (IH a (tr ++ e1) (fun j Hj => Hincl j (or_intror Hj)) H2
                 (fun kv Hkv => proj1 (Ha kv Hkv)))
      as (e2 & -> & Hb).
    exists (e1 ++ e2). split; [rewrite app_assoc; reflexivity|].
    intros kv Hkv. destruct (Hb kv Hkv) as [Hs [(x & Hx) | Hair]].
    + split; [exact Hs|].
      destruct (Ha _ Hx) as [_ [Hy | Hair]]; simpl in *.
      * left. exact Hy.
      * right. apply air_from_app_l. exact Hair.
    + split; [exact Hs|]. right. apply air_from_app_r. exact Hair.
Qed.

Ltac find_in := cbv; repeat first [left; reflexivity | right].

(** ** Claims *)

(** C1: in every run of [create_image_cli] that reaches [generate_image]
    (whose first message is "Generating the image...") or submits a
    request, the four answers were read and validated first: a non-empty
    positive prompt, a width-height answer of the form [<int>x<int>], a
    step count that [int()] accepts and a CFG scale that [float()] accepts. *)
Theorem create_submits_only_validated (w : World) M V req L r tr :
  create_image_cli w M V req L [] = (r, tr) ->
  In (EFeedback "Generating the image..." "info") tr \/
  (exists d res, In (ENet (CImageCreate d) res) tr) ->
  exists pos wh steps cfg,
    In (EAskText MSG_POS None (Some pos)) tr /\ pos <> "" /\
    In (EAskText MSG_WH (Some "1024x1024") (Some wh)) tr /\ matches_int_x_int wh /\
    In (EAskText MSG_STEPS None (Some steps)) tr /\ py_int steps <> None /\
    In (EAskText MSG_CFG None (Some cfg)) tr /\ py_float cfg <> None.
Proof.
  intros H Hgen.
  unfold create_image_cli, collect_and_generate in H.
  inv_run; use_footprints.
  all: try (exfalso; destruct Hgen as [Hgen | (d & res & Hgen)]; ev_contra; fail).
  all: match goal with
       | Hp : negb (py_truthy (py_of_answer _)) = false, Hw : Ok (_, _) = split_wh _,
         Hs : Ok _ = int_of_answer _, Hc : Ok _ = float_of_answer _ |- _ =>
           apply pos_answer_ok in Hp as (pos & -> & Hpos);
           apply split_wh_some in Hw as (wh & -> & Hwh);
           apply int_of_answer_some in Hs as (st & -> & Hst);
           apply float_of_answer_some in Hc as (cf & -> & Hcf);
           exists pos, wh, st, cf
       end.
  all: repeat split; try assumption;
       try (rewrite Hst; discriminate); try (rewrite Hcf; discriminate).
  all: rewrite !in_app_iff; simpl; auto 20.
Qed.

Lemma create_submits_only_validated_witness :
  exists pos wh steps cfg,
    In (EAskText MSG_POS None (Some pos)) (snd (demo_create "a lighthouse at dusk" "512x768" [])) /\
    pos <> "" /\
    In (EAskText MSG_WH (Some "1024x1024") (Some wh)) (snd (demo_create "a lighthouse at dusk" "512x768" [])) /\
    matches_int_x_int wh /\
    In (EAskText MSG_STEPS None (Some steps)) (snd (demo_create "a lighthouse at dusk" "512x768" [])) /\
    py_int steps <> None /\
    In (EAskText MSG_CFG None (Some cfg)) (snd (demo_create "a lighthouse at dusk" "512x768" [])) /\
    py_float cfg <> None.
Proof.
  apply (create_submits_only_validated (demo_world demo_respond "a lighthouse at dusk" "512x768") MODELS_URL VERSIONS_URL 4201 []
           (fst (demo_create "a lighthouse at dusk" "512x768" []))).
  - apply surjective_pairing.
  - left. find_in.
Defined.

(** C2: for every width-height string that is not of the form
    [<int>x<int>], [create_image_cli] emits the format error and returns:
    the error is the last event of the run, so no network call follows. *)
Theorem create_bad_dimensions_abort (w : World) M V req L r tr s :
  create_image_cli w M V req L [] = (r, tr) ->
  In (EAskText MSG_WH (Some "1024x1024") (Some s)) tr ->
  ~ matches_int_x_int s ->
  r = Ok tt /\
  exists pre, tr = pre ++ [EAskText MSG_WH (Some "1024x1024") (Some s);
                           EFeedback "Invalid width x height format. Please use format like '1024x1024'."
                             "error"].
Proof.
  intros H Hin Hnm.
  unfold create_image_cli, collect_and_generate in H.
  inv_run; use_footprints.
  all: try (exfalso; ev_contra; simpl in *; discriminate).
  all: try (exfalso; ev_contra;
            match goal with
            | H : Ok _ = split_wh (Some _) |- _ => exact (Hnm (split_wh_matches _ _ _ H))
            | H : Raise ?e = split_wh (Some _), H2 : is_value_error ?e = false |- _ =>
                rewrite (split_wh_raise _ _ H) in H2; discriminate
            end).
  lazymatch goal with
  | |- context [EAskText MSG_WH (Some "1024x1024") ?a] =>
      assert (a = Some s) as -> by (ev_contra; reflexivity)
  end.
  split; [reflexivity|].
  match goal with
  | |- exists pre, (?p ++ [_]) ++ [_] = _ => exists p; rewrite <- app_assoc; reflexivity
  end.
Qed.

Lemma create_bad_dimensions_abort_witness :
  fst (demo_create "a lighthouse at dusk" "1024" []) = Ok tt /\
  exists pre, snd (demo_create "a lighthouse at dusk" "1024" []) =
    pre ++ [EAskText MSG_WH (Some "1024x1024") (Some "1024");
            EFeedback "Invalid width x height format. Please use format like '1024x1024'." "error"].
Proof.
  apply (create_bad_dimensions_abort (demo_world demo_respond "a lighthouse at dusk" "1024")
           MODELS_URL VERSIONS_URL 4201 []).
  - apply surjective_pairing.
  - find_in.
  - intro Hm. apply matches_has_x in Hm. simpl in Hm.
    repeat (destruct Hm as [Hm|Hm]; [discriminate Hm|]); exact Hm.
Defined.

(** C3: when the processed model data has exactly one version, the run
    shows no version-selection prompt, and every request it submits names
    that version's ["air"] as its ["model"]. *)
Theorem create_single_version_no_prompt (w : World) M V req L r tr raw pm v :
  create_image_cli w M V req L [] = (r, tr) ->
  In (ENet (CProcessModelData raw) (Ok pm)) tr ->
  getitem_str pm "versions" = Ok (PList [v]) ->
  (forall ch a, ~ In (EAskSelect MSG_VERSION ch a) tr) /\
  (forall d res, In (ENet (CImageCreate d) res) tr ->
     exists air, getitem_str v "air" = Ok air /\ getitem_str d "model" = Ok air).
Proof.
  intros H Hin Hv.
  unfold create_image_cli in H. inv_run.
  all: match goal with
       | Hs : select_model_version _ _ _ _ [] = (?r, ?t) |- _ =>
           pose proof (select_single_version _ _ _ _ [] r t raw pm v Hs) as HS;
           apply select_model_version_footprint in Hs; destruct Hs as (? & ? & Fs); subst
       end.
  all: try match goal with
       | Hc : collect_and_generate _ _ _ _ _ _ = (_, _) |- _ =>
           apply collect_and_generate_footprint in Hc; destruct Hc as (? & ? & Fc); subst
       end.
  all: cbn [app] in *.
  all: match type of HS with
       | In _ ?s -> _ =>
           assert (Hs : In (ENet (CProcessModelData raw) (Ok pm)) s)
             by (repeat (apply in_app_or in Hin; destruct Hin as [Hin|Hin]);
                 first [exact Hin | exfalso; ev_contra; fail])
       end.
  all: destruct (HS Hs Hv) as [HS1 HS2]; clear HS Hs Hin;
       split; [intros ch a Ha | intros d res Hd].
  all: repeat match goal with
       | K : In _ (_ ++ _) |- _ => apply in_app_or in K; destruct K as [K|K]
       end.
  all: try (exact (HS1 _ _ Ha)).
  all: try (exfalso; ev_contra; fail).
  all: pose proof (proj1 (Forall_forall _ _) Fc _ Hd) as (params & extra & ->).
  all: exists p; split; [apply HS2; reflexivity | reflexivity].
Qed.

Lemma create_single_version_no_prompt_witness :
  (forall ch a, ~ In (EAskSelect MSG_VERSION ch a) (snd (demo_create "a lighthouse at dusk" "512x768" []))) /\
  (forall d res, In (ENet (CImageCreate d) res) (snd (demo_create "a lighthouse at dusk" "512x768" [])) ->
     exists air, getitem_str demo_version "air" = Ok air /\ getitem_str d "model" = Ok air).
Proof.
  apply (create_single_version_no_prompt (demo_world demo_respond "a lighthouse at dusk" "512x768")
           MODELS_URL VERSIONS_URL 4201 [] (fst (demo_create "a lighthouse at dusk" "512x768" []))
           _ demo_model demo_model demo_version).
  - apply surjective_pairing.
  - find_in.
  - reflexivity.
Defined.

(** C4: whenever the positive-prompt input is empty, [create_image_cli]
    emits the error "Positive prompt is required." and returns normally: the
    run ends right there, so no generation request is ever submitted. *)
Theorem create_empty_prompt_aborts (w : World) M V req L r tr :
  create_image_cli w M V req L [] = (r, tr) ->
  In (EAskText MSG_POS None (Some "")) tr ->
  r = Ok tt /\
  (exists pre, tr = pre ++ [EAskText MSG_POS None (Some "");
                            EFeedback "Positive prompt is required." "error"]) /\
  (forall d res, ~ In (ENet (CImageCreate d) res) tr).
Proof.
  intros H Hin.
  unfold create_image_cli, collect_and_generate in H.
  inv_run; use_footprints.
  all: try (exfalso; ev_contra; simpl in *; discriminate).
  lazymatch goal with
  | _ : In _ ((([] ++ ?x) ++ [EAskText MSG_POS None ?a]) ++ _) |- _ =>
      assert (a = Some "") as -> by (ev_contra; reflexivity);
      split; [reflexivity|]; split;
      [exists x; simpl; rewrite <- app_assoc; reflexivity
      | intros d res Hd; ev_contra]
  end.
Qed.

Lemma create_empty_prompt_aborts_witness :
  let run := demo_create "" "512x768" [] in
  fst run = Ok tt /\
  (exists pre, snd run = pre ++ [EAskText MSG_POS None (Some "");
                                 EFeedback "Positive prompt is required." "error"]) /\
  (forall d res, ~ In (ENet (CImageCreate d) res) (snd run)).
Proof.
  apply (create_empty_prompt_aborts (demo_world demo_respond "" "512x768")
           MODELS_URL VERSIONS_URL 4201 []).
  - apply surjective_pairing.
  - find_in.
Defined.

(** C5: [get_lora_details] never raises: each of its runs ends in [Ok].
    When the lookup of a LoRA identifier fails or gives a record whose
    ["type"] is not ["LORA"], the loop step leaves the additionalNetworks
    mapping unchanged and emits a "warning" message for that identifier. *)
Theorem lora_non_lora_excluded (w : World) :
  (forall a b c tr r tr', get_lora_details w a b c tr = (r, tr') -> exists x, r = Ok x) /\
  (forall M V nets lora_id tr r ext res,
     lora_step w M V nets lora_id tr = (r, tr ++ ext) ->
     In (ENet (CGetModelDetails (PInt lora_id) (PStr M) (PStr V)) res) ext ->
     (forall record, res = Ok record -> dot_get record "type" <> Ok (PStr "LORA")) ->
     r = Ok nets /\
     In (EFeedback ("Failed to get details for LoRA ID: " ^^ z_str lora_id) "warning") ext).
Proof.
  split; [exact (get_lora_details_ok w)|].
  intros M V nets lora_id tr r ext res H Hin Hres.
  remember (tr ++ ext) as tr' eqn:E.
  unfold lora_step, get_lora_details in H. inv_run.
  all: try discriminate.
  all: try match goal with
       | E : ?t ++ ?e = _, Hin : In _ ?e |- _ =>
           repeat rewrite <- app_assoc in E; apply app_inv_head in E; subst e
       end.
  all: try (exfalso; ev_contra;
            match goal with
            | K : true = py_key_eq ?t _ |- _ =>
                symmetry in K; apply py_key_eq_str in K; subst t;
                eapply Hres; [reflexivity | congruence]
            end).
  all: split; [reflexivity | simpl; tauto].
Qed.

Lemma lora_non_lora_excluded_witness :
  let run := lora_step (demo_world demo_respond "a lighthouse at dusk" "512x768")
               MODELS_URL VERSIONS_URL [] 7 [] in
  fst run = Ok [] /\
  In (EFeedback ("Failed to get details for LoRA ID: " ^^ z_str 7) "warning") (snd run).
Proof.
  destruct (lora_non_lora_excluded (demo_world demo_respond "a lighthouse at dusk" "512x768"))
    as [_ H].
  apply (H MODELS_URL VERSIONS_URL [] 7 [] _ _ (Ok demo_model)).
  - apply surjective_pairing.
  - find_in.
  - intros record E. injection E as <-. discriminate.
Defined.

(** The request submitted for one LoRA identifier whose record is not a
    LoRA: it carries an ["additionalNetworks"] entry with an empty mapping. *)
Lemma generate_image_empty_networks_cex :
  In (ENet (CImageCreate (PDict [(PStr "model", demo_air); (PStr "params", demo_params);
                                 (PStr "additionalNetworks", PDict [])]))
           (demo_respond (CImageCreate demo_air)))
     (snd (demo_generate [7])).
Proof. find_in. Defined.

(** C6 (amended): every request [generate_image] submits is the
    dictionary with ["model"] and the nine ["params"] fields (seed -1,
    clipSkip 1). It has an ["additionalNetworks"] entry exactly when
    [lora_list] is non-empty, even when that mapping is empty, and each
    entry of the mapping sends an ["air"] read from the lookup of a listed
    identifier to {type: Lora, strength: 1.0}. *)
Theorem generate_image_request_shape (w : World) M V air pos neg wd ht sch st cfg L tr r ext d res :
  generate_image w M V air pos neg wd ht sch st cfg L tr = (r, tr ++ ext) ->
  In (ENet (CImageCreate d) res) ext ->
  exists extra,
    d = PDict ([(PStr "model", air);
                (PStr "params",
                   PDict [(PStr "prompt", pos); (PStr "negativePrompt", neg);
                          (PStr "scheduler", sch); (PStr "steps", st);
                          (PStr "cfgScale", cfg); (PStr "width", wd); (PStr "height", ht);
                          (PStr "seed", PInt (-1)); (PStr "clipSkip", PInt 1)])] ++ extra) /\
    (L = [] -> extra = []) /\
    (L <> [] ->
       exists nets, extra = [(PStr "additionalNetworks", PDict nets)] /\
         forall kv, In kv nets ->
           snd kv = PDict [(PStr "type", PStr "Lora"); (PStr "strength", PFloat (FNum false 1 0))] /\
           air_from M V L ext (fst kv)).
Proof.
  intros H Hin.
  remember (tr ++ ext) as tr' eqn:E.
  unfold generate_image in H. inv_run.
  all: try match goal with
       | Hf : fold_m (lora_step _ _ _) _ _ _ = (Ok _, _) |- _ =>
           let Hn := fresh "Hn" in
           destruct (lora_loop_nets _ _ _ _ _ _ _ _ _ (incl_refl _) Hf
                       (fun kv (Hkv : In kv []) => match Hkv with end)) as (? & ? & Hn); subst
       end.
  all: use_footprints.
  all: repeat match goal with
              | E : ?t ++ ?a = ?t ++ ?b |- _ => apply app_inv_head in E; subst a
              end.
  all: match goal with
       | E : ?t ++ ?e = _, Hin : In _ ?e |- _ =>
           repeat rewrite <- app_assoc in E; apply app_inv_head in E; subst e
       end.
  all: try (exfalso; ev_contra; fail).
  all: ev_contra.
  all: eexists; split; [reflexivity|].
  all: split; [intro; try discriminate; reflexivity|].
  all: intro HL; try (exfalso; apply HL; reflexivity; fail).
  all: eexists; split; [reflexivity|].
  all: intros kv Hkv; destruct (Hn kv Hkv) as [Hs [(y & Hy) | Hair]]; [destruct Hy|].
  all: split; [exact Hs|].
  all: eapply air_from_incl; [|exact Hair].
  all: intros e He; rewrite !in_app_iff; tauto.
Qed.

Lemma generate_image_request_shape_witness :
  exists extra,
    PDict [(PStr "model", demo_air); (PStr "params", demo_params);
           (PStr "additionalNetworks", PDict [])] =
    PDict ([(PStr "model", demo_air);
            (PStr "params",
               PDict [(PStr "prompt", PStr "a lighthouse at dusk"); (PStr "negativePrompt", PStr "blurry");
                      (PStr "scheduler", PStr "EulerA"); (PStr "steps", PInt 30);
                      (PStr "cfgScale", PFloat (FNum false 75 (-1))); (PStr "width", PInt 512);
                      (PStr "height", PInt 768);
                      (PStr "seed", PInt (-1)); (PStr "clipSkip", PInt 1)])] ++ extra) /\
    ([7] = [] -> extra = []) /\
    ([7] <> [] ->
       exists nets, extra = [(PStr "additionalNetworks", PDict nets)] /\
         forall kv, In kv nets ->
           snd kv = PDict [(PStr "type", PStr "Lora"); (PStr "strength", PFloat (FNum false 1 0))] /\
           air_from MODELS_URL VERSIONS_URL [7] (snd (demo_generate [7])) (fst kv)).
Proof.
  apply (generate_image_request_shape (demo_world demo_respond "a lighthouse at dusk" "512x768")
           MODELS_URL VERSIONS_URL demo_air (PStr "a lighthouse at dusk") (PStr "blurry")
           (PInt 512) (PInt 768) (PStr "EulerA") (PInt 30) (PFloat (FNum false 75 (-1))) [7] []
           (fst (demo_generate [7])) (snd (demo_generate [7]))
           _ (demo_respond (CImageCreate demo_air))).
  - apply surjective_pairing.
  - find_in.
Defined.

(** A call with both identifiers is accepted: the job is fetched and no
    error is reported. *)
Lemma fetch_job_details_both_ids_cex :
  let run := fetch_job_details (demo_world demo_respond "a lighthouse at dusk" "512x768")
               (PStr "job-1") (PStr "user-1") (PBool false) [] in
  fst run = Ok tt /\
  In (ENet (CJobsGet (PStr "job-1")) (demo_respond (CJobsGet (PStr "job-1")))) (snd run) /\
  forall msg, ~ In (EFeedback msg "error") (snd run).
Proof.
  cbv. split; [reflexivity|]. split; [auto|].
  intros msg Hm. repeat (destruct Hm as [Hm|Hm]; [discriminate Hm|]); exact Hm.
Defined.

(** C7 (amended): [fetch_job_details] returns None. A truthy job
    identifier selects [civitai.jobs.get], whatever the user identifier; a
    falsy job identifier with a truthy user identifier selects
    [civitai.jobs.query]; either call is the only remote call of the run.
    With neither, the run emits only the error message and calls nothing. *)
Theorem fetch_job_details_dispatch (w : World) job_id user_id detailed tr r ext :
  fetch_job_details w job_id user_id detailed tr = (r, tr ++ ext) ->
  r = Ok tt /\
  (py_truthy job_id = true ->
     exists res rest, ext = ENet (CJobsGet job_id) res :: rest /\
                      forall c res', ~ In (ENet c res') rest) /\
  (py_truthy job_id = false -> py_truthy user_id = true ->
     exists res rest, ext = ENet (CJobsQuery detailed (job_query user_id)) res :: rest /\
                      forall c res', ~ In (ENet c res') rest) /\
  (py_truthy job_id = false -> py_truthy user_id = false ->
     ext = [EFeedback "Please provide either a job ID or a user ID." "error"]).
Proof.
  intro H.
  remember (tr ++ ext) as tr' eqn:E.
  unfold fetch_job_details in H. inv_run.
  all: try discriminate.
  all: match goal with
       | E : ?t ++ ?e = _ |- _ =>
           repeat rewrite <- app_assoc in E; apply app_inv_head in E; subst e
       end.
  all: split; [reflexivity|].
  all: repeat split; intros; try congruence.
  all: try (do 2 eexists; split; [reflexivity | intros c' res' Hc; ev_contra]).
Qed.

Lemma fetch_job_details_dispatch_witness :
  let run := fetch_job_details (demo_world demo_respond "a lighthouse at dusk" "512x768")
               PNone (PStr "") (PBool false) [] in
  fst run = Ok tt /\
  (py_truthy PNone = true ->
     exists res rest, snd run = ENet (CJobsGet PNone) res :: rest /\
                      forall c res', ~ In (ENet c res') rest) /\
  (py_truthy PNone = false -> py_truthy (PStr "") = true ->
     exists res rest, snd run = ENet (CJobsQuery (PBool false) (job_query (PStr ""))) res :: rest /\
                      forall c res', ~ In (ENet c res') rest) /\
  (py_truthy PNone = false -> py_truthy (PStr "") = false ->
     snd run = [EFeedback "Please provide either a job ID or a user ID." "error"]).
Proof.
  apply (fetch_job_details_dispatch (demo_world demo_respond "a lighthouse at dusk" "512x768")
           PNone (PStr "") (PBool false) []).
  apply surjective_pairing.
Defined.

(** C8: [fetch_job_details] and [cancel_job] return None on every run;
    when the client raises, the exception is caught and reported by exactly
    one "error" message, which ends the run. *)
Theorem job_reporter_catches_client_errors (w : World) :
  (forall job_id user_id detailed tr r ext,
     fetch_job_details w job_id user_id detailed tr = (r, tr ++ ext) ->
     r = Ok tt /\
     forall c e, In (ENet c (Raise e)) ext ->
       ext = [ENet c (Raise e); EFeedback ("Error fetching job details: " ^^ exn_str e) "error"]) /\
  (forall job_id tr r ext,
     cancel_job w job_id tr = (r, tr ++ ext) ->
     r = Ok tt /\
     forall c e, In (ENet c (Raise e)) ext ->
       ext = [ENet c (Raise e); EFeedback ("Error cancelling job: " ^^ exn_str e) "error"]).
Proof.
  split.
  - intros job_id user_id detailed tr r ext H.
    remember (tr ++ ext) as tr' eqn:E.
    unfold fetch_job_details in H. inv_run.
    all: try discriminate.
    all: match goal with
         | E : ?t ++ ?e = _ |- _ =>
             repeat rewrite <- app_assoc in E; apply app_inv_head in E; subst e
         end.
    all: split; [reflexivity | intros c' e' Hc; ev_contra; reflexivity].
  - intros job_id tr r ext H.
    remember (tr ++ ext) as tr' eqn:E.
    unfold cancel_job in H. inv_run.
    all: try discriminate.
    all: match goal with
         | E : ?t ++ ?e = _ |- _ =>
             repeat rewrite <- app_assoc in E; apply app_inv_head in E; subst e
         end.
    all: split; [reflexivity | intros c' e' Hc; ev_contra; reflexivity].
Qed.

Lemma job_reporter_catches_client_errors_witness :
  let run := fetch_job_details (demo_world offline_respond "a lighthouse at dusk" "512x768")
               (PStr "job-1") PNone (PBool false) [] in
  fst run = Ok tt /\
  forall c e, In (ENet c (Raise e)) (snd run) ->
    snd run = [ENet c (Raise e); EFeedback ("Error fetching job details: " ^^ exn_str e) "error"].
Proof.
  destruct (job_reporter_catches_client_errors (demo_world offline_respond "a lighthouse at dusk" "512x768"))
    as [H _].
  apply (H (PStr "job-1") PNone (PBool false) []).
  apply surjective_pairing.
Defined.

(** C9: when the submission response is a dictionary with a ["jobId"]
    key, the one-argument call of [fetch_job_details] raises TypeError, the
    generic handler reports it as the last event, the run returns None,
    "Job details:" is never printed and no job is fetched or queried. *)
Theorem create_job_lookup_arity_error (w : World) M V req L r tr d kvs job_id :
  create_image_cli w M V req L [] = (r, tr) ->
  In (ENet (CImageCreate d) (Ok (PDict kvs))) tr ->
  dict_lookup kvs (PStr "jobId") = Some job_id ->
  r = Ok tt /\
  (exists pre, tr = pre ++ [EFeedback ("An unexpected error occurred: " ^^ MSG_ARITY) "error"]) /\
  ~ In (EConsole "Job details:") tr /\
  (forall c res, In (ENet c res) tr -> match c with CJobsGet _ | CJobsQuery _ _ => False | _ => True end).
Proof.
  intros H Hin Hj.
  unfold create_image_cli, collect_and_generate, report_response, call_fetch_job_details in H.
  inv_run.
  all: try match goal with
       | Hg : generate_image _ _ _ _ _ _ _ _ _ _ _ _ _ = (_, _) |- _ =>
           let Hg2 := fresh "Hg" in
           pose proof Hg as Hg2; apply generate_image_footprint in Hg2;
           destruct Hg2 as (? & -> & ?);
           pose proof (fun d resp => generate_image_response _ _ _ _ _ _ _ _ _ _ _ _ _ _ _ d resp Hg)
             as HR; clear Hg
       end.
  all: use_footprints.
  all: try (exfalso; ev_contra; fail).
  all: specialize (HR d (PDict kvs)).
  all: lazymatch goal with
       | HR : In _ ?xg -> _ |- _ =>
           assert (Hg : In (ENet (CImageCreate d) (Ok (PDict kvs))) xg)
             by (repeat (apply in_app_or in Hin; destruct Hin as [Hin|Hin]);
                 first [exact Hin | exfalso; ev_contra; fail | idtac "FAILED"; match reverse goal with | H : ?t |- _ => idtac H ":" t; fail | _ => idtac end]);
           specialize (HR Hg); try (injection HR as HR; subst)
       end.
  all: try (destruct kvs; [discriminate Hj | discriminate]; fail).
  all: try (match goal with
            | K : _ = contains_str (PDict _) _ |- _ => simpl in K; rewrite Hj in K; discriminate K
            | K : Raise _ = getitem_str (PDict _) _ |- _ => simpl in K; rewrite Hj in K; discriminate K
            end).
  match goal with K : Raise _ = type_error _ |- _ => unfold type_error in K; injection K as K; subst end.
  clear Hin Hg.
  split; [reflexivity|]. split.
  - match goal with |- exists pre, ?p ++ [_] = _ => exists p; reflexivity end.
  - split; [intro Hc; ev_contra | intros c res Hc; destruct c; simpl; trivial; ev_contra].
Qed.

Lemma create_job_lookup_arity_error_witness :
  let run := demo_create "a lighthouse at dusk" "512x768" [] in
  fst run = Ok tt /\
  (exists pre, snd run = pre ++ [EFeedback ("An unexpected error occurred: " ^^ MSG_ARITY) "error"]) /\
  ~ In (EConsole "Job details:") (snd run) /\
  (forall c res, In (ENet c res) (snd run) ->
     match c with CJobsGet _ | CJobsQuery _ _ => False | _ => True end).
Proof.
  apply (create_job_lookup_arity_error (demo_world demo_respond "a lighthouse at dusk" "512x768")
           MODELS_URL VERSIONS_URL 4201 [] _ _
           (PDict [(PStr "model", demo_air); (PStr "params", demo_params)])
           [(PStr "token", PStr "tok-1"); (PStr "jobId", PStr "job-1")] (PStr "job-1")).
  - apply surjective_pairing.
  - find_in.
  - reflexivity.
Defined.

(** C10: [generate_image] calls [get_lora_details(lora_id, CIVITAI_MODELS,
    CIVITAI_VERSIONS)] against the declared order (CIVITAI_MODELS,
    CIVITAI_VERSIONS, lora_id): every metadata lookup of the run receives
    the LoRA identifier as its first argument and [CIVITAI_VERSIONS] as the
    id (third) argument, and each listed identifier is looked up before the
    request is submitted. *)
Theorem lora_lookup_argument_order (w : World) M V air pos neg wd ht sch st cfg L tr r ext :
  generate_image w M V air pos neg wd ht sch st cfg L tr = (r, tr ++ ext) ->
  (forall a b c res, In (ENet (CGetModelDetails a b c) res) ext ->
     c = PStr V /\ b = PStr M /\ exists lora_id, In lora_id L /\ a = PInt lora_id) /\
  (forall d res, In (ENet (CImageCreate d) res) ext ->
     forall lora_id, In lora_id L ->
       exists res', In (ENet (CGetModelDetails (PInt lora_id) (PStr M) (PStr V)) res') ext).
Proof.
  intro H. split.
  - intros a b c res Hin.
    pose proof H as H'. apply generate_image_footprint in H'.
    destruct H' as (ext' & E & F).
    apply app_inv_head in E. subst ext'.
    pose proof (proj1 (Forall_forall _ _) F _ Hin) as G. simpl in G.
    destruct G as (Hl & -> & ->). auto.
  - intros d res Hd lora_id Hl.
    remember (tr ++ ext) as tr' eqn:E.
    unfold generate_image in H. inv_run.
    all: try (match goal with
              | Hf : fold_m (lora_step _ _ _) _ _ _ = (Ok _, _) |- _ =>
                  destruct (lora_loop_lookup _ _ _ _ _ _ _ _ Hf) as (? & ? & Hlk); subst
              end).
    all: use_footprints.
    all: repeat match goal with
                | E : ?t ++ ?a = ?t ++ ?b |- _ => apply app_inv_head in E; subst a
                end.
    all: match goal with
         | E : ?t ++ ?e = _, Hin : In _ ?e |- _ =>
             repeat rewrite <- app_assoc in E; apply app_inv_head in E; subst e
         end.
    all: try (exfalso; ev_contra; fail).
    all: destruct (Hlk _ Hl) as (res' & Hr); exists res';
         rewrite !in_app_iff; tauto.
Qed.

Lemma lora_lookup_argument_order_witness :
  (forall a b c res, In (ENet (CGetModelDetails a b c) res) (snd (demo_generate [7; 8])) ->
     c = PStr VERSIONS_URL /\ b = PStr MODELS_URL /\ exists lora_id, In lora_id [7; 8] /\ a = PInt lora_id) /\
  (forall d res, In (ENet (CImageCreate d) res) (snd (demo_generate [7; 8])) ->
     forall lora_id, In lora_id [7; 8] ->
       exists res', In (ENet (CGetModelDetails (PInt lora_id) (PStr MODELS_URL) (PStr VERSIONS_URL)) res')
                       (snd (demo_generate [7; 8]))).
Proof.
  apply (lora_lookup_argument_order (demo_world demo_respond "a lighthouse at dusk" "512x768")
           MODELS_URL VERSIONS_URL demo_air (PStr "a lighthouse at dusk") (PStr "blurry")
           (PInt 512) (PInt 768) (PStr "EulerA") (PInt 30) (PFloat (FNum false 75 (-1))) [7; 8] []
           (fst (demo_generate [7; 8]))).
  apply surjective_pairing.
Defined.

(** ** Further properties *)

Ltac use_collect :=
  repeat match goal with
  | H : collect_and_generate _ _ _ _ _ _ = (_, _) |- _ =>
      let F := fresh "Fc" in
      apply collect_and_generate_footprint in H; destruct H as (? & ? & F); subst
  end.


(** When the processed model data is falsy, the run consists of the
    model lookup, the processing of its answer and the error
    "No model found with ID: <id>"; nothing else happens. *)
Theorem create_no_model_found (w : World) M V req L r tr raw pm :
  create_image_cli w M V req L [] = (r, tr) ->
  In (ENet (CProcessModelData raw) (Ok pm)) tr ->
  py_truthy pm = false ->
  r = Ok tt /\
  tr = [ENet (CGetModelDetails (PStr M) (PStr V) (PInt req)) (Ok raw);
        ENet (CProcessModelData raw) (Ok pm);
        EFeedback ("No model found with ID: " ^^ z_str req) "error"].
Proof.
  intros H Hin Hpm.
  unfold create_image_cli, select_model_version in H.
  inv_run; use_footprints; use_collect.
  all: try (exfalso; ev_contra; simpl in *; congruence).
  all: ev_contra.
  all: try (match goal with
            | Hp : py_truthy ?x = false, Hb : negb (py_truthy ?x) = false |- _ =>
                rewrite Hp in Hb; discriminate Hb
            end).
  all: split; reflexivity.
Qed.

Lemma create_no_model_found_witness :
  fst (run_create (demo_world missing_respond "a lighthouse at dusk" "512x768")) = Ok tt /\
  snd (run_create (demo_world missing_respond "a lighthouse at dusk" "512x768")) =
    [ENet (CGetModelDetails (PStr MODELS_URL) (PStr VERSIONS_URL) (PInt 4201)) (Ok demo_model);
     ENet (CProcessModelData demo_model) (Ok PNone);
     EFeedback ("No model found with ID: " ^^ z_str 4201) "error"].
Proof.
  eapply (create_no_model_found (demo_world missing_respond "a lighthouse at dusk" "512x768")
           MODELS_URL VERSIONS_URL 4201 [] _ _ demo_model PNone).
  - apply surjective_pairing.
  - find_in.
  - reflexivity.
Defined.

Ltac sel_inj :=
  repeat match goal with
  | H : EAskSelect _ _ _ = EAskSelect _ _ _ |- _ => injection H as H; subst
  end.

Ltac truthy_contra :=
  match goal with
  | Hp : py_truthy ?x = ?b, Hb : py_truthy ?x = ?c |- _ =>
      rewrite Hp in Hb; discriminate Hb
  | Hp : py_truthy ?x = ?b, Hb : negb (py_truthy ?x) = ?c |- _ =>
      rewrite Hp in Hb; discriminate Hb
  end.

Ltac close_last :=
  match goal with
  | |- exists pre, (?p ++ [_]) ++ [_] = _ => exists p; rewrite <- app_assoc; reflexivity
  | |- exists pre, (?p ++ [_; _]) ++ [_] = _ => exists p; rewrite <- app_assoc; reflexivity
  | |- exists pre, (?p ++ [_; _]) ++ [_; _; _] = _ =>
      exists p; rewrite <- app_assoc; reflexivity
  | |- exists pre, (((?p ++ [_; _]) ++ [_]) ++ [_]) ++ [_] = _ =>
      exists p; rewrite <- !app_assoc; reflexivity
  | |- exists pre, ?p ++ [_] = _ => exists p; reflexivity
  end.

(** When the version menu is answered with nothing truthy (cancelled),
    the run reports "No version selected. Aborting." right after the menu and
    ends there. *)
Theorem create_version_not_selected (w : World) M V req L r tr ch a :
  create_image_cli w M V req L [] = (r, tr) ->
  In (EAskSelect MSG_VERSION ch a) tr ->
  py_truthy (match a with Some v => v | None => PNone end) = false ->
  r = Ok tt /\
  exists pre, tr = pre ++ [EAskSelect MSG_VERSION ch a;
                           EFeedback "No version selected. Aborting." "error"].
Proof.
  intros H Hin Ha.
  unfold create_image_cli, select_model_version in H.
  inv_run; use_footprints; use_collect.
  all: ev_contra; sel_inj.
  all: try (simpl in *; congruence).
  all: try truthy_contra.
  all: split; [reflexivity | close_last].
Qed.

Lemma create_version_not_selected_witness :
  fst (run_create (pick_world two_version_respond None)) = Ok tt /\
  exists pre, snd (run_create (pick_world two_version_respond None)) =
    pre ++ [EAskSelect MSG_VERSION version_choices None;
            EFeedback "No version selected. Aborting." "error"].
Proof.
  eapply (create_version_not_selected (pick_world two_version_respond None)
           MODELS_URL VERSIONS_URL 4201 [] _ _ version_choices None).
  - apply surjective_pairing.
  - find_in.
  - reflexivity.
Defined.

(** The request submitted after a version menu carries, as its
    ["model"], the ["air"] of the version picked in that menu. *)
Theorem create_uses_selected_version (w : World) M V req L r tr ch v d res :
  create_image_cli w M V req L [] = (r, tr) ->
  In (EAskSelect MSG_VERSION ch (Some v)) tr ->
  In (ENet (CImageCreate d) res) tr ->
  exists air, getitem_str v "air" = Ok air /\ getitem_str d "model" = Ok air.
Proof.
  intros H Hin Hd.
  unfold create_image_cli, select_model_version in H.
  inv_run; use_footprints; use_collect.
  all: trace_contra; unfold_msgs; simpl in *.
  all: try (exfalso; ev_contra; fail).
  all: ev_contra; sel_inj.
  all: match goal with
       | G : exists params, request_of _ params _ |- _ =>
           destruct G as (params & extra & ->)
       end.
  all: eexists; split; [symmetry; eassumption | reflexivity].
Qed.

Lemma create_uses_selected_version_witness :
  exists d res,
    In (ENet (CImageCreate d) res) (snd (run_create (pick_world two_version_respond (Some 1%nat)))) /\
    exists air, getitem_str demo_version2 "air" = Ok air /\ getitem_str d "model" = Ok air.
Proof.
  do 2 eexists. split; [find_in|].
  eapply (create_uses_selected_version (pick_world two_version_respond (Some 1%nat))
           MODELS_URL VERSIONS_URL 4201 [] _ _ version_choices demo_version2 _ _).
  - apply surjective_pairing.
  - find_in.
  - find_in.
Defined.

Ltac peel_ext :=
  match goal with
  | E : ?t ++ ?e = _ |- _ =>
      repeat rewrite <- app_assoc in E; apply app_inv_head in E; subst e
  end.

Ltac close_tail :=
  repeat rewrite app_assoc;
  match goal with
  | |- exists pre, ((?p ++ [_]) ++ [_]) ++ [_] = _ =>
      exists p; rewrite <- !app_assoc; reflexivity
  | |- exists pre, (?p ++ [_]) ++ [_] = _ => exists p; rewrite <- app_assoc; reflexivity
  | |- exists pre, (?p ++ [_; _]) ++ [_] = _ => exists p; rewrite <- app_assoc; reflexivity
  | |- exists pre, (?p ++ [_; _]) ++ [_; _; _] = _ =>
      exists p; rewrite <- app_assoc; reflexivity
  | |- exists pre, (((?p ++ [_; _]) ++ [_]) ++ [_]) ++ [_] = _ =>
      exists p; rewrite <- !app_assoc; reflexivity
  | |- exists pre, ?p ++ [_] = _ => exists p; reflexivity
  end.

Lemma generate_image_outcome (w : World) M V air pos neg wd ht sch st cfg L tr r ext d resp :
  generate_image w M V air pos neg wd ht sch st cfg L tr = (r, tr ++ ext) ->
  In (ENet (CImageCreate d) resp) ext ->
  match resp with
  | Ok v =>
      r = Ok v /\
      exists pre, ext = pre ++ [ENet (CImageCreate d) (Ok v);
                                EFeedback "Image generation request submitted successfully." "success"]
  | Raise e =>
      r = Ok PNone /\
      exists pre, ext = pre ++ [ENet (CImageCreate d) (Raise e);
                                EFeedback ("Error generating image: " ^^ exn_str e) "error"]
  end.
Proof.
  intros H Hin.
  remember (tr ++ ext) as tr' eqn:E.
  unfold generate_image in H. inv_run; use_footprints.
  all: peel_ext.
  all: ev_contra.
  all: split; [reflexivity | close_tail].
Qed.

Ltac use_generate_outcome :=
  match goal with
  | Hg : generate_image _ _ _ _ _ _ _ _ _ _ _ _ _ = (_, _) |- _ =>
      let Hg2 := fresh "Hg" in
      pose proof Hg as Hg2; apply generate_image_footprint in Hg2;
      destruct Hg2 as (? & -> & ?);
      pose proof (fun d resp => generate_image_outcome _ _ _ _ _ _ _ _ _ _ _ _ _ _ _ d resp Hg)
        as HO; clear Hg
  end.

Ltac locate_in_generate HO d resp :=
  specialize (HO d resp);
  lazymatch goal with
  | HO : In _ ?xg -> _, Hin : In (ENet (CImageCreate d) resp) _ |- _ =>
      let Hg := fresh "Hg" in
      assert (Hg : In (ENet (CImageCreate d) resp) xg)
        by (repeat (apply in_app_or in Hin; destruct Hin as [Hin|Hin]);
            first [exact Hin | exfalso; ev_contra; fail]);
      specialize (HO Hg); simpl in HO; destruct HO as [HO (pre & Hpre)]; subst;
      clear Hin Hg
  end.

(** When the image-generation call raises, the run reports
    "Error generating image: <error>", then "Image generation failed.", and
    ends there. *)
Theorem create_generation_failure_reported (w : World) M V req L r tr d e :
  create_image_cli w M V req L [] = (r, tr) ->
  In (ENet (CImageCreate d) (Raise e)) tr ->
  r = Ok tt /\
  exists pre, tr = pre ++ [ENet (CImageCreate d) (Raise e);
                           EFeedback ("Error generating image: " ^^ exn_str e) "error";
                           EFeedback "Image generation failed." "error"].
Proof.
  intros H Hin.
  unfold create_image_cli, collect_and_generate, report_response,
    call_fetch_job_details in H.
  inv_run.
  all: try use_generate_outcome.
  all: use_footprints.
  all: try (exfalso; ev_contra; fail).
  all: locate_in_generate HO d (@Raise Py e).
  all: try (injection HO as HO; subst).
  all: try discriminate.
  all: split; [reflexivity | close_tail].
Qed.

Lemma create_generation_failure_reported_witness :
  exists d,
    In (ENet (CImageCreate d) (Raise rejected_exn))
       (snd (run_create (demo_world rejecting_respond "a lighthouse at dusk" "512x768"))) /\
    fst (run_create (demo_world rejecting_respond "a lighthouse at dusk" "512x768")) = Ok tt /\
    exists pre, snd (run_create (demo_world rejecting_respond "a lighthouse at dusk" "512x768")) =
      pre ++ [ENet (CImageCreate d) (Raise rejected_exn);
              EFeedback ("Error generating image: " ^^ exn_str rejected_exn) "error";
              EFeedback "Image generation failed." "error"].
Proof.
  eexists. split; [find_in|].
  eapply (create_generation_failure_reported
           (demo_world rejecting_respond "a lighthouse at dusk" "512x768")
           MODELS_URL VERSIONS_URL 4201 [] _ _ _ rejected_exn).
  - apply surjective_pairing.
  - find_in.
Defined.

(** When the service answers the request with a non-empty mapping
    that has no ["jobId"], the run prints the response and ends with the
    warning "No job ID found in the response."; no job lookup follows. *)
Theorem create_response_without_job_id (w : World) M V req L r tr d kvs :
  create_image_cli w M V req L [] = (r, tr) ->
  In (ENet (CImageCreate d) (Ok (PDict kvs))) tr ->
  kvs <> [] ->
  dict_lookup kvs (PStr "jobId") = None ->
  r = Ok tt /\
  exists pre, tr = pre ++ [ENet (CImageCreate d) (Ok (PDict kvs));
                           EFeedback "Image generation request submitted successfully." "success";
                           EConsole "Image generation response:";
                           EJson (PDict kvs);
                           EFeedback "No job ID found in the response." "warning"].
Proof.
  intros H Hin Hne Hj.
  unfold create_image_cli, collect_and_generate, report_response,
    call_fetch_job_details in H.
  inv_run.
  all: try use_generate_outcome.
  all: use_footprints.
  all: try (exfalso; ev_contra; fail).
  all: locate_in_generate HO d (@Ok Py (PDict kvs)).
  all: try (injection HO as HO; subst).
  all: try (destruct kvs; [congruence | discriminate]).
  all: try (match goal with
            | K : _ = contains_str (PDict _) _ |- _ => simpl in K; rewrite Hj in K; discriminate K
            end).
  all: split; [reflexivity | close_tail].
Qed.

Lemma create_response_without_job_id_witness :
  exists d,
    In (ENet (CImageCreate d) (Ok (PDict [(PStr "token", PStr "tok-1")])))
       (snd (run_create (demo_world token_only_respond "a lighthouse at dusk" "512x768"))) /\
    fst (run_create (demo_world token_only_respond "a lighthouse at dusk" "512x768")) = Ok tt /\
    exists pre, snd (run_create (demo_world token_only_respond "a lighthouse at dusk" "512x768")) =
      pre ++ [ENet (CImageCreate d) (Ok (PDict [(PStr "token", PStr "tok-1")]));
              EFeedback "Image generation request submitted successfully." "success";
              EConsole "Image generation response:";
              EJson (PDict [(PStr "token", PStr "tok-1")]);
              EFeedback "No job ID found in the response." "warning"].
Proof.
  eexists. split; [find_in|].
  eapply (create_response_without_job_id
           (demo_world token_only_respond "a lighthouse at dusk" "512x768")
           MODELS_URL VERSIONS_URL 4201 [] _ _ _ [(PStr "token", PStr "tok-1")]).
  - apply surjective_pairing.
  - find_in.
  - discriminate.
  - reflexivity.
Defined.

Ltac none_answer :=
  repeat match goal with
  | K : Ok _ = split_wh None |- _ => discriminate K
  | K : Ok _ = int_of_answer None |- _ => discriminate K
  | K : Ok _ = float_of_answer None |- _ => discriminate K
  | K : Raise _ = split_wh None |- _ => simpl in K; injection K as K; subst
  | K : Raise _ = int_of_answer None |- _ => simpl in K; injection K as K; subst
  | K : Raise _ = float_of_answer None |- _ => simpl in K; injection K as K; subst
  | K : is_value_error (mkExn _ _) = true |- _ => discriminate K
  end.

(** Cancelling the width-height, the steps or the CFG prompt (an
    answer of [None]) is not a [ValueError]: the run ends, right after that
    prompt, with "An unexpected error occurred: " and the message of the
    Python error that [None] raises there. *)
Theorem create_cancelled_prompt_reported (w : World) M V req L r tr :
  create_image_cli w M V req L [] = (r, tr) ->
  (In (EAskText MSG_WH (Some "1024x1024") None) tr ->
     r = Ok tt /\
     exists pre, tr = pre ++ [EAskText MSG_WH (Some "1024x1024") None;
       EFeedback "An unexpected error occurred: 'NoneType' object has no attribute 'split'" "error"]) /\
  (In (EAskText MSG_STEPS None None) tr ->
     r = Ok tt /\
     exists pre, tr = pre ++ [EAskText MSG_STEPS None None;
       EFeedback ("An unexpected error occurred: int() argument must be a string, "
                  ^^ "a bytes-like object or a real number, not 'NoneType'") "error"]) /\
  (In (EAskText MSG_CFG None None) tr ->
     r = Ok tt /\
     exists pre, tr = pre ++ [EAskText MSG_CFG None None;
       EFeedback ("An unexpected error occurred: float() argument must be a string "
                  ^^ "or a real number, not 'NoneType'") "error"]).
Proof.
  intro H.
  unfold create_image_cli, collect_and_generate in H.
  inv_run; use_footprints.
  all: split; [|split]; intro Hin.
  all: try (exfalso; ev_contra; simpl in *; discriminate).
  all: ev_contra; none_answer.
  all: split; [reflexivity | close_tail].
Qed.

Lemma create_cancelled_prompt_reported_witness :
  fst (run_create (cancel_world MSG_WH)) = Ok tt /\
  exists pre, snd (run_create (cancel_world MSG_WH)) =
    pre ++ [EAskText MSG_WH (Some "1024x1024") None;
            EFeedback "An unexpected error occurred: 'NoneType' object has no attribute 'split'" "error"].
Proof.
  eapply (create_cancelled_prompt_reported (cancel_world MSG_WH) MODELS_URL VERSIONS_URL 4201 []
           _ _ (surjective_pairing _)).
  find_in.
Defined.

(** The ["params"] of a submitted request are built from the
    operator's answers: the positive and negative prompts, the two integers of
    the width-height answer, the chosen scheduler, and the steps and CFG
    answers read by [int()] and [float()]. *)
Theorem create_request_from_answers (w : World) M V req L r tr d res :
  create_image_cli w M V req L [] = (r, tr) ->
  In (ENet (CImageCreate d) res) tr ->
  exists pos neg wh x y sch steps s cfg f,
    In (EAskText MSG_POS None (Some pos)) tr /\
    In (EAskText MSG_NEG None neg) tr /\
    In (EAskText MSG_WH (Some "1024x1024") (Some wh)) tr /\ split_wh (Some wh) = Ok (x, y) /\
    In (EAskSelect MSG_SCHEDULER (map (fun s => (s, PStr s)) SCHEDULERS) sch) tr /\
    In (EAskText MSG_STEPS None (Some steps)) tr /\ py_int steps = Some s /\
    In (EAskText MSG_CFG None (Some cfg)) tr /\ py_float cfg = Some f /\
    getitem_str d "params" =
      Ok (gen_params (PStr pos) (py_of_answer neg) (PInt x) (PInt y)
                     (match sch with Some v => v | None => PNone end) (PInt s) (PFloat f)).
Proof.
  intros H Hd.
  unfold create_image_cli, collect_and_generate in H.
  inv_run; use_footprints.
  all: trace_contra; simpl in *.
  all: try (exfalso; ev_contra; fail).
  all: match goal with
       | G : request_of _ _ _ |- _ => destruct G as (extra & ->)
       end.
  all: match goal with
       | Hp : negb (py_truthy (py_of_answer _)) = false, Hw : Ok (_, _) = split_wh ?a,
         Hs : Ok _ = int_of_answer _, Hc : Ok _ = float_of_answer _ |- _ =>
           apply pos_answer_ok in Hp as (pos & -> & _);
           destruct a as [wh|]; [|discriminate Hw];
           apply int_of_answer_some in Hs as (st & -> & Hst);
           apply float_of_answer_some in Hc as (cf & -> & Hcf);
           do 3 eexists; do 7 eexists
       end.
  all: repeat split; try eassumption; try (symmetry; eassumption).
  all: rewrite !in_app_iff; simpl; auto 20.
Qed.

Lemma create_request_from_answers_witness :
  exists d res,
    In (ENet (CImageCreate d) res) (snd (demo_create "a lighthouse at dusk" "512x768" [])) /\
    exists pos neg wh x y sch steps s cfg f,
      In (EAskText MSG_POS None (Some pos)) (snd (demo_create "a lighthouse at dusk" "512x768" [])) /\
      In (EAskText MSG_NEG None neg) (snd (demo_create "a lighthouse at dusk" "512x768" [])) /\
      In (EAskText MSG_WH (Some "1024x1024") (Some wh)) (snd (demo_create "a lighthouse at dusk" "512x768" [])) /\
      split_wh (Some wh) = Ok (x, y) /\
      In (EAskSelect MSG_SCHEDULER (map (fun s => (s, PStr s)) SCHEDULERS) sch)
         (snd (demo_create "a lighthouse at dusk" "512x768" [])) /\
      In (EAskText MSG_STEPS None (Some steps)) (snd (demo_create "a lighthouse at dusk" "512x768" [])) /\
      py_int steps = Some s /\
      In (EAskText MSG_CFG None (Some cfg)) (snd (demo_create "a lighthouse at dusk" "512x768" [])) /\
      py_float cfg = Some f /\
      getitem_str d "params" =
        Ok (gen_params (PStr pos) (py_of_answer neg) (PInt x) (PInt y)
                       (match sch with Some v => v | None => PNone end) (PInt s) (PFloat f)).
Proof.
  do 2 eexists. split; [find_in|].
  eapply (create_request_from_answers (demo_world demo_respond "a lighthouse at dusk" "512x768")
           MODELS_URL VERSIONS_URL 4201 [] _ _ _ _ (surjective_pairing _)).
  find_in.
Defined.


Lemma filter_nosub (P : Event -> Prop) l :
  Forall P l -> (forall ev, P ev -> is_submission ev = false) -> filter is_submission l = [].
Proof.
  intros F HP. induction F as [|ev l Hev F IH]; simpl; [reflexivity|].
  rewrite (HP ev Hev). exact IH.
Qed.

Ltac drop_nosub :=
  repeat match goal with
  | F : Forall ?P ?x |- context [filter is_submission ?x] =>
      rewrite (filter_nosub P x F)
        by (intros [| | | | |[]] Hp; simpl in *; try reflexivity; contradiction)
  end.

Lemma generate_image_submissions (w : World) M V air pos neg wd ht sch st cfg L tr r ext :
  generate_image w M V air pos neg wd ht sch st cfg L tr = (r, tr ++ ext) ->
  (List.length (filter is_submission ext) <= 1)%nat.
Proof.
  intros H.
  remember (tr ++ ext) as tr' eqn:E.
  unfold generate_image in H. inv_run; use_footprints.
  all: peel_ext.
  all: repeat rewrite filter_app; repeat rewrite length_app; drop_nosub; simpl; lia.
Qed.

(** A run of [create_image_cli] submits at most one image-generation
    request. *)
Theorem create_at_most_one_submission (w : World) M V req L r tr :
  create_image_cli w M V req L [] = (r, tr) ->
  (List.length (filter is_submission tr) <= 1)%nat.
Proof.
  intro H.
  unfold create_image_cli, collect_and_generate, report_response,
    call_fetch_job_details in H.
  inv_run.
  all: try match goal with
       | Hg : generate_image _ _ _ _ _ _ _ _ _ _ _ _ _ = (_, _) |- _ =>
           let Hg2 := fresh "Hg" in
           pose proof Hg as Hg2; apply generate_image_footprint in Hg2;
           destruct Hg2 as (? & -> & ?);
           apply generate_image_submissions in Hg
       end.
  all: use_footprints.
  all: repeat rewrite filter_app; repeat rewrite length_app; drop_nosub; simpl; lia.
Qed.

Lemma create_at_most_one_submission_witness :
  (List.length (filter is_submission (snd (demo_create "a lighthouse at dusk" "512x768" [7%Z]))) <= 1)%nat.
Proof.
  eapply (create_at_most_one_submission (demo_world demo_respond "a lighthouse at dusk" "512x768")
           MODELS_URL VERSIONS_URL 4201 [7] _ _ (surjective_pairing _)).
Defined.




Lemma lookup_ids_app t1 t2 : lookup_ids (t1 ++ t2) = lookup_ids t1 ++ lookup_ids t2.
Proof.
  induction t1 as [|ev t1 IH]; simpl; [reflexivity|].
  destruct ev as [| | | | |[]]; simpl; rewrite ?IH; reflexivity.
Qed.

Lemma lora_step_ids (w : World) M V nets lora_id tr r ext :
  lora_step w M V nets lora_id tr = (r, tr ++ ext) ->
  lookup_ids ext = [PInt lora_id].
Proof.
  intro H.
  remember (tr ++ ext) as tr' eqn:E.
  unfold lora_step, get_lora_details in H. inv_run.
  all: peel_ext.
  all: repeat rewrite lookup_ids_app; reflexivity.
Qed.

Lemma lora_loop_ids (w : World) M V L nets tr n tr' :
  fold_m (lora_step w M V) nets L tr = (Ok n, tr') ->
  exists ext, tr' = tr ++ ext /\ lookup_ids ext = map PInt L.
Proof.
  revert nets tr. induction L as [|x L IH]; intros nets tr H; simpl in H.
  - apply ret_inv in H as [_ ->]. exists []. rewrite app_nil_r. auto.
  - apply bind_inv in H as [(a & t1 & H1 & H2) | (e & _ & E)]; [|discriminate E].
    destruct (lora_step_lookup _ _ _ _ _ _ _ _ H1) as (res & e1 & Ht1).
    rewrite Ht1 in H1. apply lora_step_ids in H1. subst t1.
    destruct (IH _ _ H2) as (e2 & -> & Hl).
    exists ((ENet (CGetModelDetails (PInt x) (PStr M) (PStr V)) res :: e1) ++ e2).
    split; [rewrite app_assoc; reflexivity|].
    rewrite lookup_ids_app, H1, Hl. reflexivity.
Qed.

(** When [generate_image] reaches the submission, it has looked up
    each identifier of [lora_list] once, in the order of the list. *)
Theorem generate_image_lookups_in_order (w : World) M V air pos neg wd ht sch st cfg L tr r ext d res :
  generate_image w M V air pos neg wd ht sch st cfg L tr = (r, tr ++ ext) ->
  In (ENet (CImageCreate d) res) ext ->
  lookup_ids ext = map PInt L.
Proof.
  intros H Hin.
  remember (tr ++ ext) as tr' eqn:E.
  unfold generate_image in H. inv_run.
  all: try match goal with
       | Hf : fold_m _ _ _ _ = (Ok _, _) |- _ =>
           destruct (lora_loop_ids _ _ _ _ _ _ _ _ Hf) as (? & -> & Hids); clear Hf
       end.
  all: use_footprints.
  all: peel_ext.
  all: try (exfalso; ev_contra; fail).
  all: repeat rewrite lookup_ids_app; simpl; rewrite ?Hids, ?app_nil_r; reflexivity.
Qed.

Lemma generate_image_lookups_in_order_witness :
  lookup_ids (snd (lora_generate [7; 8])) = map PInt [7; 8].
Proof.
  eapply (generate_image_lookups_in_order (demo_world lora_respond "a lighthouse at dusk" "512x768")
            MODELS_URL VERSIONS_URL demo_air _ _ _ _ _ _ _ [7; 8] []).
  - apply surjective_pairing.
  - find_in.
Defined.












(** [generate_image] never raises: it returns [None] or the very
    answer of an image-generation call it made. *)
Theorem generate_image_returns_response (w : World) M V air pos neg wd ht sch st cfg L tr r ext :
  generate_image w M V air pos neg wd ht sch st cfg L tr = (r, tr ++ ext) ->
  exists v, r = Ok v /\
    (v = PNone \/ exists d, In (ENet (CImageCreate d) (Ok v)) ext).
Proof.
  intro H.
  remember (tr ++ ext) as tr' eqn:E.
  unfold generate_image in H. inv_run.
  all: try discriminate.
  all: use_footprints.
  all: peel_ext.
  all: eexists; split; [reflexivity|].
  all: try (left; reflexivity).
  all: right; eexists; rewrite !in_app_iff; simpl; eauto 20.
Qed.

Lemma generate_image_returns_response_witness :
  exists v, fst (demo_generate [7]) = Ok v /\
    (v = PNone \/ exists d, In (ENet (CImageCreate d) (Ok v)) (snd (demo_generate [7]))).
Proof.
  eapply (generate_image_returns_response (demo_world demo_respond "a lighthouse at dusk" "512x768")
           MODELS_URL VERSIONS_URL demo_air _ _ _ _ _ _ _ [7] []).
  apply surjective_pairing.
Defined.





Lemma py_int_eq s :
  py_int s =
  match py_strip s with
  | [] => None
  | c :: r =>
      if Ascii.eqb c "+" then all_digits r
      else if Ascii.eqb c "-" then option_map Z.opp (all_digits r)
      else all_digits (c :: r)
  end.
Proof.
  unfold py_int. destruct (py_strip s) as [|c r]; [reflexivity|].
  destruct c as [[] [] [] [] [] [] [] []]; reflexivity.
Qed.


Lemma digit_tail_spec k : forall l v n v' n' rest,
  (List.length l <= k)%nat ->
  digit_tail l v n = (v', n', rest) -> exists p, l = p ++ rest /\ Forall int_char p.
Proof.
  induction k as [|k IH]; intros l v n v' n' rest Hl H.
  - destruct l; [|simpl in Hl; lia]. simpl in H. injection H as _ _ <-. exists []. auto.
  - destruct l as [|c r]; simpl in H.
    + injection H as _ _ <-. exists []. auto.
    + destruct (is_digit c) eqn:Ed.
      * simpl in Hl. destruct (IH r _ _ _ _ _ ltac:(lia) H) as (p & -> & F).
        exists (c :: p). split; [reflexivity|]. constructor; [left; exact Ed | exact F].
      * destruct (Ascii.eqb c "_") eqn:Eu.
        -- apply Ascii.eqb_eq in Eu. subst c.
           destruct r as [|d r'].
           ++ injection H as _ _ <-. exists []. auto.
           ++ destruct (is_digit d) eqn:Ed'.
              ** simpl in Hl. destruct (IH r' _ _ _ _ _ ltac:(lia) H) as (p & -> & F).
                 exists ("_"%char :: d :: p). split; [reflexivity|].
                 constructor; [right; reflexivity|]. constructor; [left; exact Ed' | exact F].
              ** injection H as _ _ <-. exists []. auto.
        -- injection H as _ _ <-. exists []. auto.
Qed.

Lemma all_digits_chars l v : all_digits l = Some v -> Forall int_char l.
Proof.
  unfold all_digits, digitpart. destruct l as [|c r]; [discriminate|].
  destruct (is_digit c) eqn:Ed; [|discriminate].
  destruct (digit_tail r (digit_val c) 1) as [[v' n'] rest] eqn:Et.
  destruct rest; [|discriminate]. intros _.
  destruct (digit_tail_spec (List.length r) r _ _ _ _ _ (le_n _) Et) as (p & Hp & F).
  rewrite app_nil_r in Hp. subst. constructor; [left; exact Ed | exact F].
Qed.

Lemma drop_spaces_spec l :
  exists p, l = p ++ drop_spaces l /\ Forall (fun c => is_py_space c = true) p.
Proof.
  induction l as [|c r IH]; simpl.
  - exists []. auto.
  - destruct (is_py_space c) eqn:Es.
    + destruct IH as (p & Hp & F). exists (c :: p). simpl. rewrite <- Hp. auto.
    + exists []. auto.
Qed.

Lemma py_strip_in s c :
  In c (list_ascii_of_string s) -> is_py_space c = true \/ In c (py_strip s).
Proof.
  unfold py_strip. intro H.
  destruct (drop_spaces_spec (list_ascii_of_string s)) as (p1 & E1 & F1).
  destruct (drop_spaces_spec (rev (drop_spaces (list_ascii_of_string s)))) as (p2 & E2 & F2).
  rewrite E1 in H. apply in_app_or in H as [H | H].
  - left. exact (proj1 (Forall_forall _ _) F1 _ H).
  - apply in_rev in H. rewrite E2 in H. apply in_app_or in H as [H | H].
    + left. exact (proj1 (Forall_forall _ _) F2 _ H).
    + right. apply in_rev. rewrite rev_involutive. exact H.
Qed.

Lemma py_int_no_x s x : py_int s = Some x -> ~ In "x"%char (list_ascii_of_string s).
Proof.
  intros H Hx. apply py_strip_in in Hx as [Hs | Hx]; [discriminate Hs|].
  rewrite py_int_eq in H. destruct (py_strip s) as [|c r]; [discriminate|].
  assert (Hr : forall l, all_digits l = Some x \/ option_map Z.opp (all_digits l) = Some x ->
                         In "x"%char l -> False).
  { intros l Hl Hin.
    assert (Hd : exists v, all_digits l = Some v).
    { destruct Hl as [Hl | Hl]; [eauto|]. destruct (all_digits l); [eauto | discriminate]. }
    destruct Hd as [v Hv].
    destruct (proj1 (Forall_forall _ _) (all_digits_chars _ _ Hv) _ Hin) as [K | K];
      discriminate K. }
  destruct (Ascii.eqb c "+") eqn:Ep.
  - apply Ascii.eqb_eq in Ep. subst c. destruct Hx as [Hx | Hx]; [discriminate Hx|].
    exact (Hr r (or_introl H) Hx).
  - destruct (Ascii.eqb c "-") eqn:Em.
    + apply Ascii.eqb_eq in Em. subst c. destruct Hx as [Hx | Hx]; [discriminate Hx|].
      exact (Hr r (or_intror H) Hx).
    + exact (Hr _ (or_introl H) Hx).
Qed.

Lemma py_split_app c a b :
  ~ In c (list_ascii_of_string a) -> py_split c (a ^^ String c b) = a :: py_split c b.
Proof.
  induction a as [|ch a IH]; simpl; intro Hn.
  - rewrite Ascii.eqb_refl. reflexivity.
  - rewrite IH by tauto.
    destruct (Ascii.eqb ch c) eqn:E; [|reflexivity].
    apply Ascii.eqb_eq in E. subst. exfalso. apply Hn. left. reflexivity.
Qed.

Lemma py_split_none c s : ~ In c (list_ascii_of_string s) -> py_split c s = [s].
Proof.
  induction s as [|ch s IH]; simpl; intro Hn; [reflexivity|].
  rewrite IH by tauto.
  destruct (Ascii.eqb ch c) eqn:E; [|reflexivity].
  apply Ascii.eqb_eq in E. subst. exfalso. apply Hn. left. reflexivity.
Qed.

(** [split_wh] accepts exactly the strings "<a>x<b>" where [a] and [b]
    are accepted by [int()], and returns those two integers. *)
Theorem split_wh_accepts s x y :
  split_wh (Some s) = Ok (x, y) <->
  exists a b, s = a ^^ "x" ^^ b /\ py_int a = Some x /\ py_int b = Some y.
Proof.
  split.
  - simpl. intro H. apply unpack2_int_ok in H as (a & b & Hs & Ha & Hb).
    exists a, b. split; [|auto].
    rewrite <- (py_split_join "x" s), Hs. reflexivity.
  - intros (a & b & -> & Ha & Hb). simpl.
    rewrite (py_split_app "x" a b (py_int_no_x _ _ Ha)).
    rewrite (py_split_none "x" b (py_int_no_x _ _ Hb)).
    unfold unpack2_int, int_of_answer. rewrite Ha, Hb. reflexivity.
Qed.
